(** * yellowbrick.text.tsne: a shallow embedding of [TSNEVisualizer]

    The module is glue code around two external libraries.  The embedding
    keeps the module's own logic executable (pipeline construction, label
    bookkeeping, grouping of points, the calls issued on the axes) and takes
    the external collaborators as an injected interface ([Backend]). *)

From Stdlib Require Import ZArith QArith List String Ascii Bool Lia DecimalString
  Permutation.
Import ListNotations.
Open Scope string_scope.
Open Scope Z_scope.

(** ** Python values *)

(** The values that occur as labels and class names: strings, integers and
    [None]. *)
Inductive PyVal : Type :=
| PNone : PyVal
| PStr : string -> PyVal
| PInt : Z -> PyVal.

(** Python's [==] on these values. *)
Definition PyVal_eqb (a b : PyVal) : bool :=
  match a, b with
  | PNone, PNone => true
  | PStr s, PStr t => String.eqb s t
  | PInt m, PInt n => Z.eqb m n
  | _, _ => false
  end.

(** [str(v)] *)
Definition py_str (v : PyVal) : string :=
  match v with
  | PNone => "None"
  | PStr s => s
  | PInt n => NilZero.string_of_int (Z.to_int n)
  end.

(** [x in xs] for a list, a frozenset or the keys of a dict. *)
Definition py_in (x : PyVal) (xs : list PyVal) : bool :=
  existsb (PyVal_eqb x) xs.

(** Truthiness of an optional sequence: [None] and the empty sequence are
    falsy. *)
Definition truthy {A : Type} (o : option (list A)) : bool :=
  match o with
  | Some (_ :: _) => true
  | _ => false
  end.

(** Truthiness of an optional string. *)
Definition truthy_str (o : option string) : bool :=
  match o with
  | Some (String _ _) => true
  | _ => false
  end.

(** [str.lower()] on ASCII text. *)
Definition lower_ascii (c : ascii) : ascii :=
  let n := nat_of_ascii c in
  if (Nat.leb 65 n && Nat.leb n 90)%bool then ascii_of_nat (n + 32) else c.

Fixpoint lower (s : string) : string :=
  match s with
  | EmptyString => EmptyString
  | String c r => String (lower_ascii c) (lower r)
  end.

(** ** Dictionaries

    A dict is an association list in insertion order; assigning to an
    existing key keeps its position and replaces its value. *)
Section Dict.
Context {K V : Type} (eqb : K -> K -> bool).

Fixpoint dict_get (d : list (K * V)) (k : K) : option V :=
  match d with
  | [] => None
  | (k', v) :: r => if eqb k k' then Some v else dict_get r k
  end.

Fixpoint dict_set (d : list (K * V)) (k : K) (v : V) : list (K * V) :=
  match d with
  | [] => [(k, v)]
  | (k', v') :: r =>
      if eqb k k' then (k', v) :: r else (k', v') :: dict_set r k v
  end.

(** [dict(pairs)] *)
Definition dict_of (pairs : list (K * V)) : list (K * V) :=
  fold_left (fun d kv => dict_set d (fst kv) (snd kv)) pairs [].

Definition dict_keys (d : list (K * V)) : list K := map fst d.
End Dict.

(** ** Estimators, pipelines and the drawing surface *)

Definition Kwargs := list (string * PyVal).

Inductive Estimator : Type :=
| TruncatedSVD (n_components : Z)
| PCA (n_components : Z)
| TSNE (n_components : Z) (params : Kwargs).

(** [Pipeline(steps)]: the named stages in order. *)
Record Pipeline : Type := mkPipeline { steps : list (string * Estimator) }.

Definition Point : Type := (Q * Q)%type.
Definition Matrix : Type := list (list Q).
Definition Color : Type := string.

(** One [ax.scatter(xs, ys, c=..., alpha=..., label=...)] call. *)
Record Scatter : Type := mkScatter {
  sc_x : list Q;
  sc_y : list Q;
  sc_c : Color;
  sc_alpha : Q;
  sc_label : PyVal
}.

(** [ax.get_position()]: the drawable area in figure coordinates. *)
Record Bbox : Type := mkBbox { x0 : Q; y0 : Q; width : Q; height : Q }.

(** [ax.legend(loc=..., bbox_to_anchor=...)] *)
Record Legend : Type := mkLegend { loc : string; bbox_to_anchor : Q * Q }.

Record Axes : Type := mkAxes {
  ax_scatters : list Scatter;
  ax_title : option string;
  ax_xticks : list Q;
  ax_yticks : list Q;
  ax_position : Bbox;
  ax_legend : option Legend
}.

(** ** The visualizer object and its effects *)

Inductive PyExn : Type :=
| YellowbrickValueError (msg : string)
| KeyError (key : PyVal)
| TypeError (msg : string)
| AttributeError (msg : string)
| ExternalError (msg : string).

Inductive Res (A : Type) : Type :=
| Ok : A -> Res A
| Raise : PyExn -> Res A.
Arguments Ok {A} _.
Arguments Raise {A} _.

(** The attributes of a [TSNEVisualizer].  [transformer_] is [None] only
    while [__init__] has not yet assigned it. *)
Record Visualizer : Type := mkVisualizer {
  ax : option Axes;
  classes_ : option (list PyVal);
  n_instances_ : Z;
  colors : option (list Color);
  colormap : option string;
  transformer_ : option Pipeline
}.

(** A method body: it may mutate [self] and either returns or raises; the
    mutations made before a raise persist. *)
Definition M (A : Type) : Type := Visualizer -> Visualizer * Res A.

Definition ret {A} (a : A) : M A := fun self => (self, Ok a).
Definition raise {A} (e : PyExn) : M A := fun self => (self, Raise e).
Definition bind {A B} (m : M A) (k : A -> M B) : M B :=
  fun self =>
    match m self with
    | (self', Ok a) => k a self'
    | (self', Raise e) => (self', Raise e)
    end.
Definition get_self : M Visualizer := fun self => (self, Ok self).

Declare Scope py_scope.
Delimit Scope py_scope with py.
Notation "x <- m ;; k" := (bind m (fun x => k))
  (at level 100, m at next level, right associativity) : py_scope.
Notation "m ;;; k" := (bind m (fun _ => k))
  (at level 100, right associativity) : py_scope.
Open Scope py_scope.

(** [for x in xs: body x] *)
Fixpoint for_each {A} (xs : list A) (body : A -> M unit) : M unit :=
  match xs with
  | [] => ret tt
  | x :: r => body x ;;; for_each r body
  end.

Definition set_ax (a : Axes) : M unit :=
  fun self => (mkVisualizer (Some a) (classes_ self) (n_instances_ self)
                 (colors self) (colormap self) (transformer_ self), Ok tt).
Definition set_classes_ (c : option (list PyVal)) : M unit :=
  fun self => (mkVisualizer (ax self) c (n_instances_ self)
                 (colors self) (colormap self) (transformer_ self), Ok tt).
Definition set_n_instances_ (n : Z) : M unit :=
  fun self => (mkVisualizer (ax self) (classes_ self) n
                 (colors self) (colormap self) (transformer_ self), Ok tt).
Definition set_transformer_ (p : Pipeline) : M unit :=
  fun self => (mkVisualizer (ax self) (classes_ self) (n_instances_ self)
                 (colors self) (colormap self) (Some p), Ok tt).

(** [self.ax.<method>(...)]: fails on a visualizer without axes. *)
Definition on_ax (f : Axes -> Axes) : M unit :=
  a <- get_self ;;
  match ax a with
  | Some x => set_ax (f x)
  | None => raise (AttributeError "'NoneType' object has no attribute")
  end.

(** ** External collaborators

    What the module consumes from scikit-learn, matplotlib, the Python
    runtime and yellowbrick's colour helper. *)
Class Backend : Type := {
  (** [pipeline.fit_transform(X)] *)
  fit_transform : Pipeline -> Matrix -> Res (list Point);
  (** [get_color_cycle()]: the i-th colour the iterable yields, if any. *)
  get_color_cycle : nat -> option Color;
  (** [plt.gca()] *)
  plt_gca : Axes;
  (** iteration order of [set(y)] *)
  set_iter : list PyVal -> list PyVal;
  (** keyword names, besides [n_components], that [TSNE(...)] accepts *)
  TSNE_params : list string
}.

Class BackendLaws (B : Backend) : Prop := {
  (** the pipeline yields one projected point per instance *)
  fit_transform_rows : forall p X vecs,
    fit_transform p X = Ok vecs -> List.length vecs = List.length X;
  (** a set holds each of its elements once *)
  set_iter_NoDup : forall l, NoDup (set_iter l);
  set_iter_In : forall l x, In x (set_iter l) <-> In x l
}.

(** ** make_transformer *)

Definition decompositions : list (string * (Z -> Estimator)) :=
  [("svd", TruncatedSVD); ("pca", PCA)].

(** The message of the configuration error. *)
Definition invalid_decomposition_msg (decompose : string) : string :=
  "'" ++ decompose ++ "' is not a valid decomposition, use "
      ++ String.concat ", " (dict_keys decompositions) ++ ", or None".

(** The test of line 208: the selector is truthy and its lowercase form is
    not a key of the table. *)
Definition fails_validation (decompose : option string) : bool :=
  let d := match decompose with Some s => s | None => "" end in
  (truthy_str decompose
   && negb (existsb (String.eqb (lower d)) (dict_keys decompositions)))%bool.

Section Methods.
Context {B : Backend}.

(** [TSNE(n_components=2, **tsne_kwargs)]: a keyword given twice, or one
    the constructor does not know, is a [TypeError]. *)
Definition new_TSNE (tsne_kwargs : Kwargs) : M Estimator :=
  if existsb (String.eqb "n_components") (map fst tsne_kwargs) then
    raise (TypeError "got multiple values for keyword argument 'n_components'")
  else if forallb (fun k => existsb (String.eqb k) TSNE_params)
            (map fst tsne_kwargs) then
    ret (TSNE 2 tsne_kwargs)
  else raise (TypeError "got an unexpected keyword argument").

(** The keyword arguments [TSNE(n_components=2, **tsne_kwargs)] takes. *)
Definition tsne_kwargs_ok (tsne_kwargs : Kwargs) : bool :=
  (negb (existsb (String.eqb "n_components") (map fst tsne_kwargs))
   && forallb (fun k => existsb (String.eqb k) TSNE_params)
        (map fst tsne_kwargs))%bool.

Definition make_transformer (decompose : option string) (decompose_by : Z)
    (tsne_kwargs : Kwargs) : M Pipeline :=
  let d := match decompose with Some s => s | None => "" end in
  if fails_validation decompose
  then raise (YellowbrickValueError (invalid_decomposition_msg d))
  else
    pre <- (if truthy_str decompose then
              match dict_get String.eqb decompositions d with
              | Some klass => ret [(d, klass decompose_by)]
              | None => raise (KeyError (PStr d))
              end
            else ret []) ;;
    t <- new_TSNE tsne_kwargs ;;
    ret (mkPipeline (pre ++ [("tsne", t)])).

(** [__init__]: on success the new object; the base initialiser stores
    [ax]. *)
Definition init (ax0 : option Axes) (decompose : option string)
    (decompose_by : Z) (classes : option (list PyVal))
    (colors0 : option (list Color)) (colormap0 : option string)
    (kwargs : Kwargs) : Res Visualizer :=
  let self := mkVisualizer ax0 classes 0 colors0 colormap0 None in
  match (p <- make_transformer decompose decompose_by kwargs ;;
         set_transformer_ p) self with
  | (self', Ok _) => Ok self'
  | (_, Raise e) => Raise e
  end.

(** ** draw *)

(** [zip(classes, color_values)]: stops when either side is exhausted. *)
Fixpoint zip_colors (i : nat) (classes : list PyVal) : list (PyVal * Color) :=
  match classes with
  | [] => []
  | c :: r =>
      match get_color_cycle i with
      | Some col => (c, col) :: zip_colors (S i) r
      | None => []
      end
  end.

(** [series[label]['x'].append(x); series[label]['y'].append(y)] on the
    defaultdict: a missing key starts from two empty lists. *)
Definition series_append (series : list (PyVal * (list Q * list Q)))
    (label : PyVal) (x y : Q) : list (PyVal * (list Q * list Q)) :=
  let g := match dict_get PyVal_eqb series label with
           | Some g => g
           | None => ([], [])
           end in
  dict_set PyVal_eqb series label ((fst g ++ [x])%list, (snd g ++ [y])%list).

(** The two loops that fill [series]. *)
Definition build_series (self_classes : option (list PyVal))
    (points : list Point) (target : option (list PyVal))
    : list (PyVal * (list Q * list Q)) :=
  let classes := match self_classes with Some c => c | None => [] end in
  if truthy target then
    fold_left
      (fun series lp =>
         let '(label, point) := lp in
         if (truthy self_classes && negb (py_in label classes))%bool
         then series
         else series_append series label (fst point) (snd point))
      (combine (match target with Some t => t | None => [] end) points)
      []
  else
    fold_left
      (fun series p => series_append series PNone (fst p) (snd p))
      points [].

Definition add_scatter (s : Scatter) (a : Axes) : Axes :=
  mkAxes (ax_scatters a ++ [s])%list (ax_title a) (ax_xticks a) (ax_yticks a)
    (ax_position a) (ax_legend a).

Definition draw (points : list Point) (target : option (list PyVal))
    : M unit :=
  self <- get_self ;;
  (match ax self with None => set_ax plt_gca | Some _ => ret tt end) ;;;
  self <- get_self ;;
  let classes := if truthy (classes_ self)
                 then match classes_ self with Some c => c | None => [] end
                 else [PNone] in
  let colors := dict_of PyVal_eqb (zip_colors 0 classes) in
  let series := build_series (classes_ self) points target in
  for_each series
    (fun g =>
       match dict_get PyVal_eqb colors (fst g) with
       | Some c =>
           on_ax (add_scatter
                    (mkScatter (fst (snd g)) (snd (snd g)) c (7 # 10) (fst g)))
       | None => raise (KeyError (fst g))
       end).

(** ** fit *)

Definition fit (X : Matrix) (y : option (list PyVal)) : M unit :=
  self <- get_self ;;
  (if (truthy y
       && match classes_ self with None => true | Some _ => false end)%bool
   then set_classes_
          (Some (map (fun label => PStr (py_str label))
                   (set_iter (match y with Some l => l | None => [] end))))
   else ret tt) ;;;
  self <- get_self ;;
  vecs <- match transformer_ self with
          | Some p => fun s => (s, fit_transform p X)
          | None => raise (AttributeError "transformer_")
          end ;;
  set_n_instances_ (n_instances_ self + Z.of_nat (List.length vecs)) ;;;
  draw vecs y.

(** ** finalize *)

Definition title_text (n : Z) : string :=
  "TSNE Projection of " ++ py_str (PInt n) ++ " Documents".

(** Modelled from the spec: [set_title] is inherited from the base
    visualizer, which is not part of this module; the finalizer "sets a
    title string" on the drawing surface. *)
Definition set_title (t : string) : M unit :=
  on_ax (fun a => mkAxes (ax_scatters a) (Some t) (ax_xticks a) (ax_yticks a)
                    (ax_position a) (ax_legend a)).

Definition set_yticks (t : list Q) (a : Axes) : Axes :=
  mkAxes (ax_scatters a) (ax_title a) (ax_xticks a) t
    (ax_position a) (ax_legend a).
Definition set_xticks (t : list Q) (a : Axes) : Axes :=
  mkAxes (ax_scatters a) (ax_title a) t (ax_yticks a)
    (ax_position a) (ax_legend a).
Definition set_position (b : Bbox) (a : Axes) : Axes :=
  mkAxes (ax_scatters a) (ax_title a) (ax_xticks a) (ax_yticks a)
    b (ax_legend a).
Definition legend (l : Legend) (a : Axes) : Axes :=
  mkAxes (ax_scatters a) (ax_title a) (ax_xticks a) (ax_yticks a)
    (ax_position a) (Some l).

Definition finalize : M unit :=
  self <- get_self ;;
  set_title (title_text (n_instances_ self)) ;;;
  on_ax (set_yticks []) ;;;
  on_ax (set_xticks []) ;;;
  self <- get_self ;;
  if truthy (classes_ self) then
    on_ax (fun a =>
             let box := ax_position a in
             set_position
               (mkBbox (x0 box) (y0 box) (width box * (8 # 10)) (height box))
               a) ;;;
    on_ax (legend (mkLegend "center left" (1%Q, 1 # 2)))
  else ret tt.

End Methods.

(** ** Where a legend lands

    matplotlib pins the point of the legend named by [loc] at
    [bbox_to_anchor], given in fractions of the axes: the axes themselves
    are the unit square.  For a legend [w] wide and [h] high this is its
    box (the padding matplotlib adds moves it further from the anchor). *)
Definition legend_box (l : Legend) (w h : Q) : option Bbox :=
  let ax_ := fst (bbox_to_anchor l) in
  let ay_ := snd (bbox_to_anchor l) in
  if String.eqb (loc l) "center left" then Some (mkBbox ax_ (ay_ - h / 2) w h)
  else if String.eqb (loc l) "upper left" then Some (mkBbox ax_ (ay_ - h) w h)
  else if String.eqb (loc l) "lower left" then Some (mkBbox ax_ ay_ w h)
  else if String.eqb (loc l) "center right"
       then Some (mkBbox (ax_ - w) (ay_ - h / 2) w h)
  else if String.eqb (loc l) "center"
       then Some (mkBbox (ax_ - w / 2) (ay_ - h / 2) w h)
  else None.

(** ** Reference notions used to state the properties *)

(** The distinct elements of a list, by first occurrence. *)
Fixpoint first_occurrences (seen : list PyVal) (l : list PyVal) : list PyVal :=
  match l with
  | [] => []
  | x :: r =>
      if py_in x seen then first_occurrences seen r
      else x :: first_occurrences (x :: seen) r
  end.

Definition distinct (l : list PyVal) : list PyVal := first_occurrences [] l.

(** The points that carry a given label, in input order. *)
Definition points_of (label : PyVal) (target : list PyVal)
    (points : list Point) : list Point :=
  map snd (filter (fun lp => PyVal_eqb (fst lp) label) (combine target points)).

(** Number of points in a drawn group. *)
Definition group_size (s : Scatter) : nat := List.length (sc_x s).

Definition total_size (l : list Scatter) : nat :=
  fold_right (fun s n => (group_size s + n)%nat) 0%nat l.

(** The scatter calls of the axes held by a visualizer. *)
Definition drawn (v : Visualizer) : list Scatter :=
  match ax v with Some a => ax_scatters a | None => [] end.

Definition blank_axes : Axes :=
  mkAxes [] None [0%Q; 1%Q] [0%Q; 1%Q] (mkBbox (1 # 8) (1 # 10) (3 # 4) (4 # 5)) None.

(** ** Test doubles for the external collaborators *)

Definition palette : list Color :=
  ["#0272a2"; "#9fc377"; "#ca0b03"; "#a53abd"; "#d4c20f"; "#ca5c05"].

Definition project2 (row : list Q) : Point := (nth 0 row 0%Q, nth 1 row 0%Q).

(** A backend whose sets iterate by first occurrence and whose colour
    iterable is the six-colour palette. *)
Definition list_backend : Backend := {|
  fit_transform := fun _ X => Ok (map project2 X);
  get_color_cycle := fun i => nth_error palette i;
  plt_gca := blank_axes;
  set_iter := distinct;
  TSNE_params := ["perplexity"; "learning_rate"; "n_iter"; "random_state"]
|}.

(** Integers before the other values, in ascending order. *)
Definition key_leb (a b : PyVal) : bool :=
  match a, b with
  | PInt m, PInt n => Z.leb m n
  | PInt _, _ => true
  | _, PInt _ => false
  | _, _ => true
  end.

Fixpoint insert_sorted (x : PyVal) (l : list PyVal) : list PyVal :=
  match l with
  | [] => [x]
  | y :: r => if key_leb x y then x :: y :: r else y :: insert_sorted x r
  end.

Definition ascending (l : list PyVal) : list PyVal :=
  fold_right insert_sorted [] l.

(** A backend whose sets iterate small integers in ascending order, as
    CPython's hash table does for [{2, 1}]. *)
Definition hashed_backend : Backend := {|
  fit_transform := fun _ X => Ok (map project2 X);
  get_color_cycle := fun i => nth_error palette i;
  plt_gca := blank_axes;
  set_iter := fun l => ascending (distinct l);
  TSNE_params := ["perplexity"; "learning_rate"; "n_iter"; "random_state"]
|}.

(** Number of output components of a stage. *)
Definition components (e : Estimator) : Z :=
  match e with
  | TruncatedSVD n => n
  | PCA n => n
  | TSNE n _ => n
  end.

(** The linear decompositions and the nonlinear embedding. *)
Definition is_decomposition (e : Estimator) : bool :=
  match e with
  | TruncatedSVD _ | PCA _ => true
  | TSNE _ _ => false
  end.

Definition is_embedding (e : Estimator) : bool := negb (is_decomposition e).

(** A visualizer as [TSNEVisualizer()] builds it with its defaults. *)
Definition default_visualizer : Visualizer :=
  mkVisualizer None None 0 None None
    (Some (mkPipeline [("svd", TruncatedSVD 50); ("tsne", TSNE 2 [])])).

(** The grouping loop of [draw] on labelled points: each point is appended
    to the lists of its label. *)
Definition group_points (l : list (PyVal * Point))
    : list (PyVal * (list Q * list Q)) :=
  fold_left
    (fun series lp => series_append series (fst lp) (fst (snd lp)) (snd (snd lp)))
    l [].

(** The test of line 299, negated: the label is plotted. *)
Definition kept (self_classes : option (list PyVal)) (label : PyVal) : bool :=
  negb (truthy self_classes
        && negb (py_in label
                   (match self_classes with Some c => c | None => [] end))).

(** [series[k]] without inserting: the lists of [k], empty when missing. *)
Definition lookup_or_empty (series : list (PyVal * (list Q * list Q)))
    (k : PyVal) : list Q * list Q :=
  match dict_get PyVal_eqb series k with
  | Some g => g
  | None => ([], [])
  end.

Definition series_total (series : list (PyVal * (list Q * list Q))) : nat :=
  fold_right (fun g n => (List.length (fst (snd g)) + n)%nat) 0%nat series.

(** The scatter call issued for one entry of [series]. *)
Definition scatter_of (colors : list (PyVal * Color))
    (g : PyVal * (list Q * list Q)) : Scatter :=
  mkScatter (fst (snd g)) (snd (snd g))
    (match dict_get PyVal_eqb colors (fst g) with Some c => c | None => "" end)
    (7 # 10) (fst g).

(** The visualizer with its axes replaced. *)
Definition with_ax (v : Visualizer) (a : Axes) : Visualizer :=
  mkVisualizer (Some a) (classes_ v) (n_instances_ v) (colors v) (colormap v)
    (transformer_ v).

(** The axes [draw] paints on: the visualizer's, or the current axes of the
    plotting library. *)
Definition canvas {B : Backend} (v : Visualizer) : Axes :=
  match ax v with Some a => a | None => plt_gca end.

(** The class list [draw] zips with the colours. *)
Definition color_classes (v : Visualizer) : list PyVal :=
  if truthy (classes_ v)
  then match classes_ v with Some c => c | None => [] end
  else [PNone].

(** The colour iterable yields at least [n] colours. *)
Definition enough_colors {B : Backend} (n : nat) : Prop :=
  forall i, (i < n)%nat -> get_color_cycle i <> None.

(** The axes after further scatter calls. *)
Definition add_scatters (l : list Scatter) (a : Axes) : Axes :=
  mkAxes (ax_scatters a ++ l)%list (ax_title a) (ax_xticks a) (ax_yticks a)
    (ax_position a) (ax_legend a).

(** Two states of a visualizer that differ at most in the axes. *)
Definition same_but_ax (v v' : Visualizer) : Prop :=
  classes_ v' = classes_ v /\ n_instances_ v' = n_instances_ v
  /\ colors v' = colors v /\ colormap v' = colormap v
  /\ transformer_ v' = transformer_ v.

(** The exceptions the plotting loop can raise by itself. *)
Definition lookup_failure (e : PyExn) : Prop :=
  match e with
  | KeyError _ | AttributeError _ => True
  | _ => False
  end.

(** The class names held after the first statement of [fit]. *)
Definition stored_classes {B : Backend} (v : Visualizer)
    (y : option (list PyVal)) : option (list PyVal) :=
  if (truthy y
      && match classes_ v with None => true | Some _ => false end)%bool
  then Some (map (fun label => PStr (py_str label))
               (set_iter (match y with Some l => l | None => [] end)))
  else classes_ v.

Definition with_classes (v : Visualizer) (c : option (list PyVal)) : Visualizer :=
  mkVisualizer (ax v) c (n_instances_ v) (colors v) (colormap v)
    (transformer_ v).

Definition with_count (v : Visualizer) (n : Z) : Visualizer :=
  mkVisualizer (ax v) (classes_ v) n (colors v) (colormap v) (transformer_ v).

(** The plotting loop of [draw] read as a function of the axes: the axes
    after the scatter calls that were made, and the label whose colour was
    missing, if the loop stopped on one. *)
Fixpoint plot_groups (colors : list (PyVal * Color))
    (series : list (PyVal * (list Q * list Q))) (a : Axes)
    : Axes * option PyVal :=
  match series with
  | [] => (a, None)
  | g :: r =>
      match dict_get PyVal_eqb colors (fst g) with
      | Some c =>
          plot_groups colors r
            (add_scatter
               (mkScatter (fst (snd g)) (snd (snd g)) c (7 # 10) (fst g)) a)
      | None => (a, Some (fst g))
      end
  end.

(** How the loop ends: normally, or with the [KeyError] of [colors[label]]. *)
Definition plot_outcome (missing : option PyVal) : Res unit :=
  match missing with
  | None => Ok tt
  | Some k => Raise (KeyError k)
  end.

(** The axes as [finalize] leaves them, for a counter [n]; [named] tells
    whether class names are held. *)
Definition finalized (n : Z) (named : bool) (a : Axes) : Axes :=
  mkAxes (ax_scatters a) (Some (title_text n)) [] []
    (if named
     then mkBbox (x0 (ax_position a)) (y0 (ax_position a))
            (width (ax_position a) * (8 # 10)) (height (ax_position a))
     else ax_position a)
    (if named then Some (mkLegend "center left" (1%Q, 1 # 2))
     else ax_legend a).

(** The visualizer with other [colors] and [colormap] arguments. *)
Definition with_palette (v : Visualizer) (co : option (list Color))
    (cm : option string) : Visualizer :=
  mkVisualizer (ax v) (classes_ v) (n_instances_ v) co cm (transformer_ v).

(** * Properties *)

(** ** Python values *)

Lemma PyVal_eqb_eq (a b : PyVal) : PyVal_eqb a b = true <-> a = b.
Proof.
  destruct a, b; simpl; split; intro H; try discriminate; try reflexivity.
  - apply String.eqb_eq in H. now subst.
  - inversion H. apply String.eqb_refl.
  - apply Z.eqb_eq in H. now subst.
  - inversion H. apply Z.eqb_refl.
Qed.

Lemma PyVal_eqb_refl (a : PyVal) : PyVal_eqb a a = true.
Proof. now apply PyVal_eqb_eq. Qed.

Lemma PyVal_eqb_sym (a b : PyVal) : PyVal_eqb a b = PyVal_eqb b a.
Proof.
  destruct (PyVal_eqb a b) eqn:E.
  - apply PyVal_eqb_eq in E. subst. symmetry. apply PyVal_eqb_refl.
  - destruct (PyVal_eqb b a) eqn:E'; [|reflexivity].
    apply PyVal_eqb_eq in E'. subst. now rewrite PyVal_eqb_refl in E.
Qed.

Lemma PyVal_eqb_neq (a b : PyVal) : PyVal_eqb a b = false <-> a <> b.
Proof.
  split.
  - intros H E. apply PyVal_eqb_eq in E. congruence.
  - intros H. destruct (PyVal_eqb a b) eqn:E; [|reflexivity].
    apply PyVal_eqb_eq in E. contradiction.
Qed.

Lemma py_in_In (x : PyVal) (l : list PyVal) : py_in x l = true <-> In x l.
Proof.
  unfold py_in. rewrite existsb_exists. split.
  - intros [y [Hy E]]. apply PyVal_eqb_eq in E. now subst.
  - intros H. exists x. split; [assumption | apply PyVal_eqb_refl].
Qed.

Lemma py_in_not_In (x : PyVal) (l : list PyVal) : py_in x l = false <-> ~ In x l.
Proof.
  rewrite <- py_in_In. destruct (py_in x l); split; congruence.
Qed.

Lemma truthy_str_nonempty (d : string) : d <> "" -> truthy_str (Some d) = true.
Proof. destruct d; [congruence | reflexivity]. Qed.

(** ** make_transformer *)

Section MakeTransformer.
Context {B : Backend}.

(** The method never assigns to [self]. *)
Lemma make_transformer_self decompose n kw v :
  fst (make_transformer decompose n kw v) = v.
Proof.
  unfold make_transformer, new_TSNE, bind, ret, raise.
  destruct (fails_validation decompose); [reflexivity|].
  destruct (truthy_str decompose);
    [destruct (dict_get _ _ _)|]; simpl;
    repeat match goal with |- context [if ?c then _ else _] => destruct c end;
    reflexivity.
Qed.

Lemma new_TSNE_ok kw v :
  tsne_kwargs_ok kw = true -> new_TSNE kw v = (v, Ok (TSNE 2 kw)).
Proof.
  unfold tsne_kwargs_ok, new_TSNE. intros H.
  apply andb_true_iff in H. destruct H as [H1 H2].
  apply negb_true_iff in H1. now rewrite H1, H2.
Qed.

Lemma new_TSNE_inv kw v v' e :
  new_TSNE kw v = (v', Ok e) -> e = TSNE 2 kw.
Proof.
  unfold new_TSNE, ret, raise.
  repeat match goal with |- context [if ?c then _ else _] => destruct c end;
    intros H; inversion H; reflexivity.
Qed.

(** Whatever the arguments, a pipeline that is returned ends in the
    two-component embedding. *)
Lemma make_transformer_last decompose n kw v v' p :
  make_transformer decompose n kw v = (v', Ok p) ->
  exists pre, steps p = (pre ++ [("tsne", TSNE 2 kw)])%list.
Proof.
  unfold make_transformer, bind, ret, raise.
  destruct (fails_validation decompose); [discriminate|].
  destruct (truthy_str decompose).
  - destruct (dict_get _ _ _) as [klass|]; [|discriminate].
    destruct (new_TSNE kw v) as [w [t|x]] eqn:Et; [|discriminate].
    intros H. inversion H. apply new_TSNE_inv in Et. subst. simpl.
    eexists [_]. reflexivity.
  - destruct (new_TSNE kw v) as [w [t|x]] eqn:Et; [|discriminate].
    intros H. inversion H. apply new_TSNE_inv in Et. subst. simpl.
    now exists [].
Qed.

(** A selector that passes the lowercase test without being a key of the
    table is looked up, and the lookup fails. *)
Lemma make_transformer_KeyError d n kw v :
  d <> "" ->
  existsb (String.eqb (lower d)) (dict_keys decompositions) = true ->
  existsb (String.eqb d) (dict_keys decompositions) = false ->
  make_transformer (Some d) n kw v = (v, Raise (KeyError (PStr d))).
Proof.
  intros Hd Hl Hk. unfold make_transformer, fails_validation, bind, raise.
  rewrite (truthy_str_nonempty d Hd), Hl. simpl in Hk |- *.
  destruct (String.eqb d "svd"); [discriminate|].
  destruct (String.eqb d "pca"); [discriminate|]. reflexivity.
Qed.

End MakeTransformer.

(** ** Dictionaries keyed by Python values *)

Section DictFacts.
Context {V : Type}.
Implicit Types (d : list (PyVal * V)) (k : PyVal) (v : V).

Lemma dict_get_set_same d k v :
  dict_get PyVal_eqb (dict_set PyVal_eqb d k v) k = Some v.
Proof.
  induction d as [|[k' v'] r IH]; simpl.
  - now rewrite PyVal_eqb_refl.
  - destruct (PyVal_eqb k k') eqn:E; simpl; now rewrite E.
Qed.

Lemma dict_get_set_other d k k' v :
  k' <> k ->
  dict_get PyVal_eqb (dict_set PyVal_eqb d k v) k' = dict_get PyVal_eqb d k'.
Proof.
  intros N. induction d as [|[k0 v0] r IH]; simpl.
  - apply PyVal_eqb_neq in N. now rewrite N.
  - destruct (PyVal_eqb k k0) eqn:E; simpl.
    + apply PyVal_eqb_eq in E. subst k0.
      apply PyVal_eqb_neq in N. now rewrite N.
    + now rewrite IH.
Qed.

Lemma dict_set_keys d k v :
  map fst (dict_set PyVal_eqb d k v)
  = if py_in k (map fst d) then map fst d else (map fst d ++ [k])%list.
Proof.
  induction d as [|[k0 v0] r IH]; simpl; [reflexivity|].
  destruct (PyVal_eqb k k0) eqn:E; simpl; [reflexivity|].
  rewrite IH. now destruct (py_in k (map fst r)).
Qed.

Lemma dict_get_None d k :
  dict_get PyVal_eqb d k = None <-> ~ In k (map fst d).
Proof.
  induction d as [|[k0 v0] r IH]; simpl; [tauto|].
  destruct (PyVal_eqb k k0) eqn:E.
  - apply PyVal_eqb_eq in E. subst. split; [discriminate | tauto].
  - apply PyVal_eqb_neq in E. rewrite IH. split; [|tauto].
    intros H [H'|H']; [congruence | tauto].
Qed.

Lemma dict_get_In d k v :
  NoDup (map fst d) -> In (k, v) d -> dict_get PyVal_eqb d k = Some v.
Proof.
  induction d as [|[k0 v0] r IH]; simpl; [tauto|].
  intros ND [H|H].
  - inversion H. subst. now rewrite PyVal_eqb_refl.
  - inversion ND as [|? ? Hn ND']. subst.
    destruct (PyVal_eqb k k0) eqn:E.
    + apply PyVal_eqb_eq in E. subst. exfalso. apply Hn.
      change k0 with (fst (k0, v)). now apply in_map.
    + now apply IH.
Qed.

Lemma dict_of_keys_acc (pairs acc : list (PyVal * V)) k :
  In k (map fst (fold_left
                   (fun d kv => dict_set PyVal_eqb d (fst kv) (snd kv))
                   pairs acc))
  <-> In k (map fst acc) \/ In k (map fst pairs).
Proof.
  revert acc. induction pairs as [|[k0 v0] r IH]; intros acc; simpl.
  - tauto.
  - rewrite IH, dict_set_keys.
    destruct (py_in k0 (map fst acc)) eqn:E.
    + apply py_in_In in E. split; [tauto|].
      intros [H|[H|H]]; subst; tauto.
    + rewrite in_app_iff. simpl. tauto.
Qed.

Lemma dict_of_keys (pairs : list (PyVal * V)) k :
  In k (map fst (dict_of PyVal_eqb pairs)) <-> In k (map fst pairs).
Proof. unfold dict_of. rewrite dict_of_keys_acc. simpl. tauto. Qed.

End DictFacts.

(** ** Distinct values by first occurrence *)

Lemma first_occurrences_ext (s1 s2 l : list PyVal) :
  (forall x, py_in x s1 = py_in x s2) ->
  first_occurrences s1 l = first_occurrences s2 l.
Proof.
  revert s1 s2. induction l as [|a r IH]; intros s1 s2 H; simpl; [reflexivity|].
  rewrite <- (H a). destruct (py_in a s1); [now apply IH|].
  f_equal. apply IH. intros x. simpl. now rewrite H.
Qed.

Lemma first_occurrences_In (seen l : list PyVal) (x : PyVal) :
  In x (first_occurrences seen l) <-> In x l /\ ~ In x seen.
Proof.
  revert seen. induction l as [|a r IH]; intros seen; simpl; [tauto|].
  destruct (py_in a seen) eqn:E.
  - apply py_in_In in E. rewrite IH. split; [tauto|].
    intros [[H|H] N]; subst; tauto.
  - apply py_in_not_In in E. simpl. rewrite IH. simpl. split.
    + intros [H|[H N]]; subst; tauto.
    + intros [[H|H] N]; [tauto|].
      destruct (PyVal_eqb a x) eqn:Ex.
      * apply PyVal_eqb_eq in Ex. tauto.
      * apply PyVal_eqb_neq in Ex. tauto.
Qed.

Lemma first_occurrences_NoDup (seen l : list PyVal) :
  NoDup (first_occurrences seen l).
Proof.
  revert seen. induction l as [|a r IH]; intros seen; simpl; [constructor|].
  destruct (py_in a seen); [apply IH|].
  constructor; [|apply IH].
  rewrite first_occurrences_In. simpl. tauto.
Qed.

Lemma distinct_In (l : list PyVal) (x : PyVal) : In x (distinct l) <-> In x l.
Proof. unfold distinct. rewrite first_occurrences_In. simpl. tauto. Qed.

Lemma distinct_NoDup (l : list PyVal) : NoDup (distinct l).
Proof. apply first_occurrences_NoDup. Qed.

(** ** The grouping loop *)

Section Grouping.
Implicit Types (s : list (PyVal * (list Q * list Q))) (k : PyVal)
  (l : list (PyVal * Point)).

Let step := fun s (lp : PyVal * Point) =>
  series_append s (fst lp) (fst (snd lp)) (snd (snd lp)).

Lemma series_append_keys s k x y :
  map fst (series_append s k x y)
  = if py_in k (map fst s) then map fst s else (map fst s ++ [k])%list.
Proof. unfold series_append. apply dict_set_keys. Qed.

Lemma series_append_same s k x y :
  lookup_or_empty (series_append s k x y) k
  = ((fst (lookup_or_empty s k) ++ [x])%list,
     (snd (lookup_or_empty s k) ++ [y])%list).
Proof.
  unfold lookup_or_empty at 1. unfold series_append.
  now rewrite dict_get_set_same.
Qed.

Lemma series_append_other s k k' x y :
  k' <> k ->
  lookup_or_empty (series_append s k x y) k' = lookup_or_empty s k'.
Proof.
  intros N. unfold lookup_or_empty, series_append.
  now rewrite dict_get_set_other.
Qed.

Lemma series_append_total s k x y :
  series_total (series_append s k x y) = S (series_total s).
Proof.
  induction s as [|[k0 g0] r IH]; [reflexivity|].
  unfold series_append in *. simpl.
  destruct (PyVal_eqb k k0) eqn:E; simpl.
  - rewrite length_app. simpl. lia.
  - rewrite IH. lia.
Qed.

Lemma fold_keys l s :
  map fst (fold_left step l s)
  = (map fst s ++ first_occurrences (map fst s) (map fst l))%list.
Proof.
  revert s. induction l as [|a r IH]; intros s; simpl.
  - now rewrite app_nil_r.
  - rewrite IH. change (step s a) with (series_append s (fst a) (fst (snd a)) (snd (snd a))).
    rewrite series_append_keys.
    destruct (py_in (fst a) (map fst s)) eqn:E; [reflexivity|].
    rewrite <- app_assoc. simpl. do 2 f_equal.
    apply first_occurrences_ext. intros x. unfold py_in.
    rewrite existsb_app. simpl. rewrite orb_false_r. apply orb_comm.
Qed.

Lemma fold_lookup l s k :
  lookup_or_empty (fold_left step l s) k
  = ((fst (lookup_or_empty s k)
      ++ map (fun lp => fst (snd lp))
           (filter (fun lp => PyVal_eqb (fst lp) k) l))%list,
     (snd (lookup_or_empty s k)
      ++ map (fun lp => snd (snd lp))
           (filter (fun lp => PyVal_eqb (fst lp) k) l))%list).
Proof.
  revert s. induction l as [|a r IH]; intros s; simpl.
  - rewrite !app_nil_r. now destruct (lookup_or_empty s k).
  - rewrite IH. change (step s a) with (series_append s (fst a) (fst (snd a)) (snd (snd a))).
    destruct (PyVal_eqb (fst a) k) eqn:E.
    + apply PyVal_eqb_eq in E. subst k. rewrite series_append_same. simpl.
      now rewrite <- !app_assoc.
    + apply PyVal_eqb_neq in E.
      rewrite series_append_other by congruence. reflexivity.
Qed.

Lemma fold_total l s :
  series_total (fold_left step l s) = (series_total s + List.length l)%nat.
Proof.
  revert s. induction l as [|a r IH]; intros s; simpl; [lia|].
  rewrite IH. change (step s a) with (series_append s (fst a) (fst (snd a)) (snd (snd a))).
  rewrite series_append_total. lia.
Qed.

(** The keys of the groups are the distinct labels, by first occurrence. *)
Lemma group_points_keys l :
  map fst (group_points l) = distinct (map fst l).
Proof. unfold group_points. apply (fold_keys l []). Qed.

(** The lists of a label are the coordinates of its points, in order. *)
Lemma group_points_lookup l k :
  lookup_or_empty (group_points l) k
  = (map (fun lp => fst (snd lp)) (filter (fun lp => PyVal_eqb (fst lp) k) l),
     map (fun lp => snd (snd lp)) (filter (fun lp => PyVal_eqb (fst lp) k) l)).
Proof. unfold group_points. apply (fold_lookup l []). Qed.

Lemma group_points_total l : series_total (group_points l) = List.length l.
Proof. unfold group_points. apply (fold_total l []). Qed.

Lemma group_points_entry l g :
  In g (group_points l) ->
  In (fst g) (map fst l)
  /\ snd g = lookup_or_empty (group_points l) (fst g).
Proof.
  intros H. split.
  - apply distinct_In. rewrite <- group_points_keys. now apply in_map.
  - unfold lookup_or_empty. destruct g as [k v]. simpl.
    rewrite (dict_get_In (group_points l) k v); [reflexivity| |assumption].
    rewrite group_points_keys. apply distinct_NoDup.
Qed.

End Grouping.

(** ** The two loops that fill the series *)

Lemma fold_skip (skip : PyVal -> bool) (l : list (PyVal * Point))
    (acc : list (PyVal * (list Q * list Q))) :
  fold_left
    (fun series lp =>
       let '(label, point) := lp in
       if skip label then series
       else series_append series label (fst point) (snd point))
    l acc
  = fold_left
      (fun series lp =>
         series_append series (fst lp) (fst (snd lp)) (snd (snd lp)))
      (filter (fun lp => negb (skip (fst lp))) l) acc.
Proof.
  revert acc. induction l as [|[label point] r IH]; intros acc; simpl.
  - reflexivity.
  - rewrite IH. now destruct (skip label).
Qed.

Lemma build_series_labelled cls points target :
  target <> [] ->
  build_series cls points (Some target)
  = group_points (filter (fun lp => kept cls (fst lp)) (combine target points)).
Proof.
  intros H. unfold build_series, group_points, kept.
  destruct target as [|t0 tr]; [congruence|].
  cbv beta iota delta [truthy].
  rewrite (fold_skip
             (fun label =>
                (match cls with Some (_ :: _) => true | _ => false end
                 && negb (py_in label
                            match cls with Some c => c | None => [] end))%bool)).
  reflexivity.
Qed.

Lemma build_series_unlabelled cls points target :
  truthy target = false ->
  build_series cls points target
  = group_points (map (fun p => (PNone, p)) points).
Proof.
  intros H. unfold build_series, group_points. rewrite H.
  generalize (@nil (PyVal * (list Q * list Q))).
  induction points as [|p r IH]; intros acc; simpl; [reflexivity|].
  apply IH.
Qed.

(** ** The plotting loop *)

Section Plotting.
Context {B : Backend}.

Lemma with_ax_id v a : ax v = Some a -> with_ax v a = v.
Proof. destruct v. simpl. intros ->. reflexivity. Qed.

Lemma add_scatters_nil a : add_scatters [] a = a.
Proof. destruct a. unfold add_scatters. simpl. now rewrite app_nil_r. Qed.

Lemma for_each_scatter (colors : list (PyVal * Color)) series v a :
  ax v = Some a ->
  (forall g, In g series -> dict_get PyVal_eqb colors (fst g) <> None) ->
  for_each series
    (fun g =>
       match dict_get PyVal_eqb colors (fst g) with
       | Some c =>
           on_ax (add_scatter
                    (mkScatter (fst (snd g)) (snd (snd g)) c (7 # 10) (fst g)))
       | None => raise (KeyError (fst g))
       end) v
  = (with_ax v (add_scatters (map (scatter_of colors) series) a), Ok tt).
Proof.
  revert v a. induction series as [|g r IH]; intros v a Ha Hc.
  - simpl. unfold ret. rewrite add_scatters_nil. now rewrite with_ax_id.
  - cbn [for_each]. unfold bind at 1.
    assert (Hg : dict_get PyVal_eqb colors (fst g) <> None)
      by (apply Hc; now left).
    destruct (dict_get PyVal_eqb colors (fst g)) as [c|] eqn:Ec;
      [|congruence].
    unfold on_ax, bind, get_self. rewrite Ha. unfold set_ax.
    rewrite (IH _ (add_scatter
                     (mkScatter (fst (snd g)) (snd (snd g)) c (7 # 10) (fst g))
                     a)); [|reflexivity|intros; apply Hc; now right].
    f_equal. unfold with_ax, add_scatters, add_scatter, scatter_of. simpl.
    rewrite Ec, <- app_assoc. reflexivity.
Qed.

Lemma on_ax_frame f v : same_but_ax v (fst (on_ax f v)).
Proof.
  unfold on_ax, bind, get_self, set_ax, raise, same_but_ax.
  destruct (ax v); simpl; auto.
Qed.

Lemma same_but_ax_refl v : same_but_ax v v.
Proof. unfold same_but_ax. auto. Qed.

Lemma same_but_ax_trans u v w :
  same_but_ax u v -> same_but_ax v w -> same_but_ax u w.
Proof. unfold same_but_ax. intuition congruence. Qed.

Lemma for_each_frame {A} (body : A -> M unit) (xs : list A) :
  (forall x v, same_but_ax v (fst (body x v))) ->
  forall v, same_but_ax v (fst (for_each xs body v)).
Proof.
  intros Hb. induction xs as [|x r IH]; intros v; simpl.
  - apply same_but_ax_refl.
  - unfold bind. specialize (Hb x v).
    destruct (body x v) as [v1 [[]|e]]; simpl in *; [|assumption].
    eapply same_but_ax_trans; [eassumption | apply IH].
Qed.

Lemma for_each_raises {A} (body : A -> M unit) (xs : list A)
    (P : PyExn -> Prop) :
  (forall x v e, snd (body x v) = Raise e -> P e) ->
  forall v e, snd (for_each xs body v) = Raise e -> P e.
Proof.
  intros Hb. induction xs as [|x r IH]; intros v e; simpl.
  - discriminate.
  - unfold bind. specialize (Hb x v).
    destruct (body x v) as [v1 [[]|e1]]; simpl in *.
    + apply IH.
    + intros H. inversion H. subst. now apply Hb.
Qed.

Lemma on_ax_raises f v e : snd (on_ax f v) = Raise e -> lookup_failure e.
Proof.
  unfold on_ax, bind, get_self, set_ax, raise.
  destruct (ax v); simpl; intros H; inversion H. exact I.
Qed.

End Plotting.

(** ** draw *)

Section Draw.
Context {B : Backend}.

Lemma zip_colors_keys classes i :
  (forall j, (i <= j < i + List.length classes)%nat ->
             get_color_cycle j <> None) ->
  map fst (zip_colors i classes) = classes.
Proof.
  revert i. induction classes as [|c r IH]; intros i H; simpl; [reflexivity|].
  destruct (get_color_cycle i) eqn:E.
  - simpl. f_equal. apply IH. intros j Hj. apply H. simpl. lia.
  - exfalso. apply (H i); [simpl; lia | assumption].
Qed.

Lemma enough_colors_keys classes :
  enough_colors (List.length classes) ->
  map fst (zip_colors 0 classes) = classes.
Proof. intros H. apply zip_colors_keys. intros j Hj. apply H. lia. Qed.

(** When every group has a colour, [draw] issues one scatter call per
    group, in the order of the series, and returns. *)
Lemma draw_ok points target v :
  (forall g, In g (build_series (classes_ v) points target) ->
             In (fst g) (map fst (zip_colors 0 (color_classes v)))) ->
  draw points target v
  = (with_ax v
       (add_scatters
          (map (scatter_of (dict_of PyVal_eqb (zip_colors 0 (color_classes v))))
             (build_series (classes_ v) points target))
          (canvas v)),
     Ok tt).
Proof.
  intros H.
  assert (Hc : forall g, In g (build_series (classes_ v) points target) ->
               dict_get PyVal_eqb
                 (dict_of PyVal_eqb (zip_colors 0 (color_classes v))) (fst g)
               <> None).
  { intros g Hg N. apply dict_get_None in N. apply N.
    apply dict_of_keys. now apply H. }
  unfold draw, canvas. unfold bind at 1. unfold get_self at 1.
  unfold bind at 1. destruct (ax v) as [a|] eqn:Ha.
  - unfold ret at 1. unfold bind, get_self. cbv zeta.
    now apply for_each_scatter.
  - unfold set_ax at 1. unfold bind, get_self. cbv zeta.
    rewrite (for_each_scatter
               (dict_of PyVal_eqb (zip_colors 0 (color_classes v)))
               (build_series (classes_ v) points target) _ plt_gca);
      [reflexivity | reflexivity | exact Hc].
Qed.

(** Whatever happens, [draw] touches nothing but the axes. *)
Lemma draw_frame points target v :
  same_but_ax v (fst (draw points target v)).
Proof.
  unfold draw. unfold bind at 1. unfold get_self at 1.
  unfold bind at 1.
  assert (H1 : same_but_ax v
                 (fst ((match ax v with
                        | Some _ => ret tt
                        | None => set_ax plt_gca
                        end) v))).
  { destruct (ax v); unfold ret, set_ax, same_but_ax; simpl; auto. }
  destruct ((match ax v with Some _ => ret tt | None => set_ax plt_gca end) v)
    as [v1 [[]|e]] eqn:E1; simpl in H1; [|exact H1].
  unfold bind, get_self. cbv zeta.
  eapply same_but_ax_trans; [exact H1|].
  apply for_each_frame. intros g w.
  destruct (dict_get _ _ _); [apply on_ax_frame | apply same_but_ax_refl].
Qed.

(** [draw] raises nothing but a failed lookup. *)
Lemma draw_raises points target v e :
  snd (draw points target v) = Raise e -> lookup_failure e.
Proof.
  unfold draw. unfold bind at 1. unfold get_self at 1.
  unfold bind at 1.
  destruct ((match ax v with Some _ => ret tt | None => set_ax plt_gca end) v)
    as [v1 [[]|e1]] eqn:E1.
  - unfold bind, get_self. cbv zeta. apply for_each_raises.
    intros g w e0. destruct (dict_get _ _ _).
    + apply on_ax_raises.
    + unfold raise. simpl. intros H. inversion H. exact I.
  - destruct (ax v); unfold ret, set_ax in E1; inversion E1.
Qed.

End Draw.

(** ** fit *)

Section Fit.
Context {B : Backend}.

(** [fit] statement by statement. *)
Lemma fit_eq X y v :
  fit X y v
  = let v1 := with_classes v (stored_classes v y) in
    match transformer_ v with
    | None => (v1, Raise (AttributeError "transformer_"))
    | Some p =>
        match fit_transform p X with
        | Raise e => (v1, Raise e)
        | Ok vecs =>
            draw vecs y
              (with_count v1 (n_instances_ v + Z.of_nat (List.length vecs)))
        end
    end.
Proof.
  destruct v as [a c n co cm t].
  unfold fit, stored_classes, with_classes, with_count.
  unfold bind at 1. unfold get_self at 1. unfold bind at 1.
  cbn [classes_ transformer_ n_instances_ ax colors colormap].
  destruct (truthy y && match c with None => true | Some _ => false end)%bool.
  - unfold set_classes_ at 1. unfold bind at 1. unfold get_self at 1.
    cbv zeta. cbn [classes_ transformer_ n_instances_ ax colors colormap].
    unfold bind at 1.
    destruct t as [p|]; [|reflexivity].
    destruct (fit_transform p X) as [vecs|e]; [|reflexivity].
    unfold bind. unfold set_n_instances_. reflexivity.
  - unfold ret at 1. unfold bind at 1. unfold get_self at 1.
    cbv zeta. cbn [classes_ transformer_ n_instances_ ax colors colormap].
    unfold bind at 1.
    destruct t as [p|]; [|reflexivity].
    destruct (fit_transform p X) as [vecs|e]; [|reflexivity].
    unfold bind. unfold set_n_instances_. reflexivity.
Qed.

(** After [fit], however it ends, the class names are those its first
    statement stored. *)
Lemma fit_classes X y v :
  classes_ (fst (fit X y v)) = stored_classes v y.
Proof.
  rewrite fit_eq. cbv zeta.
  destruct (transformer_ v) as [p|]; [|reflexivity].
  destruct (fit_transform p X) as [vecs|e]; [|reflexivity].
  destruct (draw_frame vecs y
              (with_count (with_classes v (stored_classes v y))
                 (n_instances_ v + Z.of_nat (List.length vecs))))
    as [H _].
  exact H.
Qed.

(** A [fit] that returns has used the stored pipeline and added the number
    of projected points to the counter. *)
Lemma fit_count X y v v' :
  fit X y v = (v', Ok tt) ->
  exists p vecs,
    transformer_ v = Some p /\ fit_transform p X = Ok vecs
    /\ n_instances_ v' = n_instances_ v + Z.of_nat (List.length vecs).
Proof.
  rewrite fit_eq. cbv zeta.
  destruct (transformer_ v) as [p|] eqn:Et; [|discriminate].
  destruct (fit_transform p X) as [vecs|e] eqn:E; [|discriminate].
  intros H. exists p, vecs. split; [reflexivity|]. split; [exact E|].
  destruct (draw_frame vecs y
              (with_count (with_classes v (stored_classes v y))
                 (n_instances_ v + Z.of_nat (List.length vecs))))
    as [_ [Hn _]].
  rewrite H in Hn. exact Hn.
Qed.

(** What [fit] can raise: a failed lookup of its own, or whatever the
    external pipeline raised. *)
Lemma fit_raises X y v e :
  snd (fit X y v) = Raise e ->
  lookup_failure e
  \/ exists p, transformer_ v = Some p /\ fit_transform p X = Raise e.
Proof.
  rewrite fit_eq. cbv zeta.
  destruct (transformer_ v) as [p|] eqn:Et.
  - destruct (fit_transform p X) as [vecs|e0] eqn:E.
    + intros H. left. eapply draw_raises. exact H.
    + simpl. intros H. inversion H. subst. right. exists p. now split.
  - simpl. intros H. inversion H. left. exact I.
Qed.

End Fit.

(** ** finalize *)

Lemma finalize_raises v e : snd (finalize v) = Raise e -> lookup_failure e.
Proof.
  destruct v as [[a|] c n co cm t];
    unfold finalize, set_title, on_ax, bind, get_self, set_ax, raise, ret;
    cbn [ax classes_ n_instances_ colors colormap transformer_].
  - destruct (truthy c);
      cbn [ax classes_ n_instances_ colors colormap transformer_ snd];
      discriminate.
  - cbn [snd]. intros H. inversion H. exact I.
Qed.

(** ** The test doubles satisfy the laws of the interface *)

Lemma insert_sorted_perm (x : PyVal) (l : list PyVal) :
  Permutation (x :: l) (insert_sorted x l).
Proof.
  induction l as [|y r IH]; simpl; [reflexivity|].
  destruct (key_leb x y); [reflexivity|].
  rewrite perm_swap. now constructor.
Qed.

Lemma ascending_perm (l : list PyVal) : Permutation l (ascending l).
Proof.
  induction l as [|x r IH]; simpl; [constructor|].
  rewrite <- insert_sorted_perm. now constructor.
Qed.

Lemma list_backend_laws : BackendLaws list_backend.
Proof.
  split; simpl.
  - intros p X vecs H. inversion H. apply length_map.
  - apply distinct_NoDup.
  - intros l x. apply distinct_In.
Qed.

Lemma hashed_backend_laws : BackendLaws hashed_backend.
Proof.
  split; simpl.
  - intros p X vecs H. inversion H. apply length_map.
  - intros l. eapply Permutation_NoDup; [apply ascending_perm|].
    apply distinct_NoDup.
  - intros l x. split; intros H.
    + apply distinct_In.
      eapply Permutation_in; [symmetry; apply ascending_perm | exact H].
    + eapply Permutation_in; [apply ascending_perm | now apply distinct_In].
Qed.

(** * The claims *)

(** ** Pipeline builder *)

Lemma make_transformer_YellowbrickValueError {B : Backend} decompose n kw v msg :
  snd (make_transformer decompose n kw v) = Raise (YellowbrickValueError msg) ->
  fails_validation decompose = true.
Proof.
  unfold make_transformer, new_TSNE, bind, ret, raise.
  destruct (fails_validation decompose); [reflexivity|].
  destruct (truthy_str decompose);
    [destruct (dict_get _ _ _)|]; simpl;
    repeat match goal with |- context [if ?c then _ else _] => destruct c end;
    simpl; discriminate.
Qed.

(** C1, as amended.  A non-empty selector whose lowercase form is neither
    "svd" nor "pca" makes [make_transformer] raise YellowbrickValueError with
    a message that quotes the selector and lists the choices svd, pca and
    None, and the visualizer, with the pipeline it holds, is left as it was.
    No other statement of the module raises that error: [make_transformer]
    raises it only when the test of the selector fails, [draw] and
    [finalize] never do, and [fit] only hands on what the external pipeline
    raised. *)
Theorem make_transformer_rejects_unknown {B : Backend} (d : string) (n : Z)
    (kw : Kwargs) (v : Visualizer) :
  d <> "" ->
  ~ In (lower d) ["svd"; "pca"] ->
  make_transformer (Some d) n kw v
  = (v, Raise (YellowbrickValueError
                 ("'" ++ d ++ "' is not a valid decomposition, use svd, pca, or None")))
  /\ transformer_ (fst (make_transformer (Some d) n kw v)) = transformer_ v
  /\ (forall d' n' kw' w msg,
        snd (make_transformer d' n' kw' w) = Raise (YellowbrickValueError msg) ->
        fails_validation d' = true)
  /\ (forall points target w msg,
        snd (draw points target w) <> Raise (YellowbrickValueError msg))
  /\ (forall w msg, snd (finalize w) <> Raise (YellowbrickValueError msg))
  /\ (forall X y w msg,
        snd (fit X y w) = Raise (YellowbrickValueError msg) ->
        exists p, transformer_ w = Some p
                  /\ fit_transform p X = Raise (YellowbrickValueError msg)).
Proof.
  intros Hd Hl.
  assert (E : make_transformer (Some d) n kw v
              = (v, Raise (YellowbrickValueError
                             ("'" ++ d ++ "' is not a valid decomposition, use svd, pca, or None")))).
  { unfold make_transformer, fails_validation.
    rewrite (truthy_str_nonempty d Hd).
    assert (Hx : existsb (String.eqb (lower d)) (dict_keys decompositions) = false).
    { simpl. destruct (String.eqb (lower d) "svd") eqn:E1.
      - apply String.eqb_eq in E1. exfalso. apply Hl. simpl. auto.
      - destruct (String.eqb (lower d) "pca") eqn:E2; [|reflexivity].
        apply String.eqb_eq in E2. exfalso. apply Hl. simpl. auto. }
    rewrite Hx. reflexivity. }
  split; [exact E|]. split; [now rewrite E|].
  split; [intros; eapply make_transformer_YellowbrickValueError; eassumption|].
  split; [|split].
  - intros points target w msg H. apply draw_raises in H. exact H.
  - intros w msg H. apply finalize_raises in H. exact H.
  - intros X y w msg H. apply fit_raises in H. destruct H as [H|H].
    + destruct H.
    + exact H.
Qed.

Lemma make_transformer_rejects_unknown_witness :
  make_transformer (B:=list_backend) (Some "nmf") 50 [] default_visualizer
  = (default_visualizer,
     Raise (YellowbrickValueError
              "'nmf' is not a valid decomposition, use svd, pca, or None")).
Proof.
  refine (proj1 (make_transformer_rejects_unknown (B:=list_backend)
                   "nmf" 50 [] default_visualizer _ _)).
  - discriminate.
  - simpl. intros [H|[H|H]]; [discriminate | discriminate | exact H].
Defined.

(** C1 as stated fails: "SVD" is a non-empty string outside {"svd", "pca"},
    and [make_transformer] raises KeyError for it, not
    YellowbrickValueError. *)
Lemma make_transformer_SVD_not_configuration_error :
  "SVD" <> "" /\ ~ In "SVD" ["svd"; "pca"]
  /\ make_transformer (B:=list_backend) (Some "SVD") 50 [] default_visualizer
     = (default_visualizer, Raise (KeyError (PStr "SVD")))
  /\ forall msg,
       snd (make_transformer (B:=list_backend) (Some "SVD") 50 []
              default_visualizer)
       <> Raise (YellowbrickValueError msg).
Proof.
  split; [discriminate|]. split.
  - simpl. intros [H|[H|H]]; [discriminate | discriminate | exact H].
  - split; [reflexivity | intros msg; discriminate].
Qed.

(** C10.  Some selector, "SVD", has its lowercase form in the table without
    being lowercase itself; it passes the validation test, which looks up
    the lowercase form, and then fails with KeyError, which is not the
    configuration error, because the table is indexed by the selector as
    given. *)
Theorem uppercase_selector_KeyError :
  exists d : string,
    In (lower d) (dict_keys decompositions)
    /\ lower d <> d
    /\ fails_validation (Some d) = false
    /\ dict_get String.eqb decompositions (lower d) <> None
    /\ dict_get String.eqb decompositions d = None
    /\ forall (B : Backend) n kw v,
         make_transformer (Some d) n kw v = (v, Raise (KeyError (PStr d)))
         /\ forall msg, KeyError (PStr d) <> YellowbrickValueError msg.
Proof.
  exists "SVD". split; [simpl; auto|]. split; [discriminate|].
  split; [reflexivity|]. split; [discriminate|]. split; [reflexivity|].
  intros B n kw v. split; [|discriminate].
  apply make_transformer_KeyError; [discriminate | reflexivity | reflexivity].
Qed.

(** C4.  For the selectors "svd", "pca" and None, and keyword arguments the
    embedding accepts, [make_transformer] returns a pipeline whose last
    stage is the embedding with 2 components; with a selector it has two
    stages, the first the selected decomposition with [decompose_by]
    components, and with None the embedding is its only stage. *)
Theorem make_transformer_pipeline {B : Backend} (decompose : option string)
    (decompose_by : Z) (kw : Kwargs) (v : Visualizer) :
  decompose = None \/ decompose = Some "svd" \/ decompose = Some "pca" ->
  tsne_kwargs_ok kw = true ->
  exists p,
    make_transformer decompose decompose_by kw v = (v, Ok p)
    /\ last (steps p) ("", PCA 0) = ("tsne", TSNE 2 kw)
    /\ is_embedding (snd (last (steps p) ("", PCA 0))) = true
    /\ components (snd (last (steps p) ("", PCA 0))) = 2
    /\ match decompose with
       | None => steps p = [("tsne", TSNE 2 kw)]
       | Some s =>
           exists e, steps p = [(s, e); ("tsne", TSNE 2 kw)]
                     /\ is_decomposition e = true
                     /\ components e = decompose_by
                     /\ (s = "svd" -> e = TruncatedSVD decompose_by)
                     /\ (s = "pca" -> e = PCA decompose_by)
       end.
Proof.
  intros Hd Hk.
  destruct Hd as [-> | [-> | ->]];
    unfold make_transformer, bind, ret; simpl;
    rewrite (new_TSNE_ok kw v Hk); eexists; (split; [reflexivity|]); simpl;
    repeat split.
  - exists (TruncatedSVD decompose_by). repeat split. discriminate.
  - exists (PCA decompose_by). repeat split. discriminate.
Qed.

Lemma make_transformer_pipeline_witness :
  exists p,
    make_transformer (B:=list_backend) (Some "pca") 30
      [("perplexity", PInt 40)] default_visualizer = (default_visualizer, Ok p)
    /\ steps p = [("pca", PCA 30); ("tsne", TSNE 2 [("perplexity", PInt 40)])].
Proof.
  destruct (make_transformer_pipeline (B:=list_backend) (Some "pca") 30
              [("perplexity", PInt 40)] default_visualizer
              (or_intror (or_intror eq_refl)) eq_refl)
    as [p [H1 [_ [_ [_ [e [H2 [_ [_ [_ H3]]]]]]]]]].
  exists p. split; [exact H1|]. rewrite H2, (H3 eq_refl). reflexivity.
Defined.

(** C8, evaluated on the code.  [make_transformer] returns the pipeline it
    builds and assigns nothing: after any call the visualizer holds the
    pipeline it held before.  On the default visualizer, which holds the
    "svd" pipeline, [make_transformer("pca")] returns the "pca" pipeline and
    the stored one is still the "svd" pipeline. *)
Theorem make_transformer_does_not_store :
  (forall (B : Backend) decompose n kw v,
     transformer_ (fst (make_transformer decompose n kw v)) = transformer_ v)
  /\ forall B : Backend,
       make_transformer (Some "pca") 50 [] default_visualizer
       = (default_visualizer,
          Ok (mkPipeline [("pca", PCA 50); ("tsne", TSNE 2 [])]))
       /\ transformer_ default_visualizer
          = Some (mkPipeline [("svd", TruncatedSVD 50); ("tsne", TSNE 2 [])])
       /\ transformer_ default_visualizer
          <> Some (mkPipeline [("pca", PCA 50); ("tsne", TSNE 2 [])]).
Proof.
  split.
  - intros. now rewrite make_transformer_self.
  - intros B. split; [reflexivity|]. split; [reflexivity | discriminate].
Qed.

Lemma init_default {B : Backend} :
  init None (Some "svd") 50 None None None [] = Ok default_visualizer.
Proof. reflexivity. Qed.

(** A new visualizer has counted no instance. *)
Lemma init_n_instances {B : Backend} a d n c co cm kw v :
  init a d n c co cm kw = Ok v -> n_instances_ v = 0.
Proof.
  unfold init, bind.
  pose proof (make_transformer_self d n kw
                (mkVisualizer a c 0 co cm None)) as Hs.
  destruct (make_transformer d n kw (mkVisualizer a c 0 co cm None))
    as [w [p|e]]; simpl in Hs; [|discriminate].
  subst w. unfold set_transformer_. simpl. intros H. inversion H. reflexivity.
Qed.

(** ** Fit driver *)

(** C7.  Two successive [fit] calls that return, on inputs of a and b
    instances, leave the counter at its initial value plus a + b; on a
    visualizer that has counted nothing yet, at a + b. *)
Theorem fit_twice_counts {B : Backend} {L : BackendLaws B} (X1 X2 : Matrix)
    (y1 y2 : option (list PyVal)) (v v1 v2 : Visualizer) :
  fit X1 y1 v = (v1, Ok tt) ->
  fit X2 y2 v1 = (v2, Ok tt) ->
  n_instances_ v1 = n_instances_ v + Z.of_nat (List.length X1)
  /\ n_instances_ v2 = n_instances_ v1 + Z.of_nat (List.length X2)
  /\ (n_instances_ v = 0 ->
      n_instances_ v2 = Z.of_nat (List.length X1) + Z.of_nat (List.length X2)).
Proof.
  intros H1 H2.
  apply fit_count in H1. destruct H1 as [p1 [vecs1 [_ [F1 N1]]]].
  apply fit_count in H2. destruct H2 as [p2 [vecs2 [_ [F2 N2]]]].
  apply fit_transform_rows in F1. apply fit_transform_rows in F2.
  rewrite F1 in N1. rewrite F2 in N2. lia.
Qed.

Lemma fit_twice_counts_witness :
  n_instances_
    (fst (fit (B:=list_backend) [[5; 6]; [7; 8]; [9; 1]]%Q None
            (fst (fit (B:=list_backend) [[1; 2]; [3; 4]]%Q None
                    default_visualizer))))
  = 2 + 3.
Proof.
  refine (proj2 (proj2
    (fit_twice_counts (B:=list_backend) (L:=list_backend_laws)
       [[1; 2]; [3; 4]]%Q [[5; 6]; [7; 8]; [9; 1]]%Q None None
       default_visualizer
       (fst (fit (B:=list_backend) [[1; 2]; [3; 4]]%Q None default_visualizer))
       (fst (fit (B:=list_backend) [[5; 6]; [7; 8]; [9; 1]]%Q None
               (fst (fit (B:=list_backend) [[1; 2]; [3; 4]]%Q None
                       default_visualizer))))
       _ _)) _); vm_compute; reflexivity.
Defined.

(** C3, as amended.  With a non-empty label sequence [y] and no class names
    configured, [fit] stores the string representations of the distinct
    labels, one entry per distinct label, in the order in which [set(y)]
    iterates (some rearrangement of the order of first occurrence).  With a
    falsy [y], or with class names configured, the stored class names are
    left as they were. *)
Theorem fit_derives_class_names {B : Backend} {L : BackendLaws B} (X : Matrix)
    (y : list PyVal) (v : Visualizer) :
  y <> [] ->
  classes_ v = None ->
  (exists order,
     classes_ (fst (fit X (Some y) v))
     = Some (map (fun label => PStr (py_str label)) order)
     /\ order = set_iter y
     /\ NoDup order
     /\ (forall label, In label order <-> In label y)
     /\ Permutation order (distinct y))
  /\ (forall X' y' w, truthy y' = false ->
                      classes_ (fst (fit X' y' w)) = classes_ w)
  /\ (forall X' y' w c, classes_ w = Some c ->
                        classes_ (fst (fit X' y' w)) = Some c).
Proof.
  intros Hy Hc. split; [|split].
  - exists (set_iter y). rewrite fit_classes. unfold stored_classes.
    rewrite Hc. destruct y as [|y0 yr]; [congruence|]. simpl.
    split; [reflexivity|]. split; [reflexivity|].
    split; [apply set_iter_NoDup|]. split; [apply set_iter_In|].
    apply NoDup_Permutation.
    + apply set_iter_NoDup.
    + apply distinct_NoDup.
    + intros x. rewrite set_iter_In, distinct_In. tauto.
  - intros X' y' w Hf. rewrite fit_classes. unfold stored_classes.
    now rewrite Hf.
  - intros X' y' w c Hw. rewrite fit_classes. unfold stored_classes.
    rewrite Hw, andb_false_r. reflexivity.
Qed.

Lemma fit_derives_class_names_witness :
  exists order,
    classes_ (fst (fit (B:=list_backend) [[1; 2]; [3; 4]; [5; 6]]%Q
                     (Some [PStr "b"; PStr "a"; PStr "b"]) default_visualizer))
    = Some (map (fun label => PStr (py_str label)) order)
    /\ Permutation order [PStr "b"; PStr "a"].
Proof.
  destruct (proj1 (fit_derives_class_names (B:=list_backend)
                     (L:=list_backend_laws) [[1; 2]; [3; 4]; [5; 6]]%Q
                     [PStr "b"; PStr "a"; PStr "b"] default_visualizer
                     ltac:(discriminate) eq_refl))
    as [order [H1 [_ [_ [_ H2]]]]].
  exists order. split; [exact H1 | exact H2].
Defined.

(** C3 as stated fails twice.  Where sets iterate as CPython's do for
    [{2, 1}], [fit] on the labels [2, 1] stores ["1", "2"], which is not
    the order of first occurrence; and on the labels [1, "1"] it stores
    ["1", "1"], which are not distinct. *)
Lemma fit_class_names_not_by_first_occurrence :
  BackendLaws hashed_backend
  /\ classes_ (fst (fit (B:=hashed_backend) [[1; 2]; [3; 4]]%Q
                      (Some [PInt 2; PInt 1]) default_visualizer))
     = Some [PStr "1"; PStr "2"]
  /\ distinct (map (fun label => PStr (py_str label)) [PInt 2; PInt 1])
     = [PStr "2"; PStr "1"]
  /\ classes_ (fst (fit (B:=list_backend) [[1; 2]; [3; 4]]%Q
                      (Some [PInt 1; PStr "1"]) default_visualizer))
     = Some [PStr "1"; PStr "1"]
  /\ distinct (map (fun label => PStr (py_str label)) [PInt 1; PStr "1"])
     = [PStr "1"].
Proof.
  split; [exact hashed_backend_laws|].
  repeat split; vm_compute; reflexivity.
Qed.

(** ** Renderer *)

Lemma filter_fst_combine_length {A} (f : PyVal -> bool) (target : list PyVal)
    (points : list A) :
  List.length target = List.length points ->
  List.length (filter (fun lp => f (fst lp)) (combine target points))
  = List.length (filter f target).
Proof.
  revert points. induction target as [|t r IH]; intros [|p ps] H; simpl in *;
    try discriminate; [reflexivity|].
  destruct (f t); simpl; rewrite IH; auto.
Qed.

Lemma filter_length_lt {A} (f : A -> bool) (l : list A) (x : A) :
  In x l -> f x = false -> (List.length (filter f l) < List.length l)%nat.
Proof.
  induction l as [|a r IH]; simpl; [tauto|].
  intros [->|H] Hx.
  - rewrite Hx. pose proof (filter_length_le f r). lia.
  - specialize (IH H Hx). destruct (f a); simpl; lia.
Qed.

Lemma filter_all {A} (f : A -> bool) (l : list A) :
  (forall x, In x l -> f x = true) -> filter f l = l.
Proof.
  induction l as [|a r IH]; simpl; intros H; [reflexivity|].
  rewrite (H a) by auto. f_equal. apply IH. auto.
Qed.

Lemma filter_none {A} (f : A -> bool) (l : list A) :
  (forall x, In x l -> f x = false) -> filter f l = [].
Proof.
  induction l as [|a r IH]; simpl; intros H; [reflexivity|].
  rewrite (H a) by auto. apply IH. auto.
Qed.

Lemma filter_label_kept {A} (f : PyVal -> bool) (k : PyVal)
    (l : list (PyVal * A)) :
  f k = true ->
  filter (fun lp => PyVal_eqb (fst lp) k) (filter (fun lp => f (fst lp)) l)
  = filter (fun lp => PyVal_eqb (fst lp) k) l.
Proof.
  intros Hk. induction l as [|a r IH]; simpl; [reflexivity|].
  destruct (f (fst a)) eqn:Ef; simpl.
  - now rewrite IH.
  - destruct (PyVal_eqb (fst a) k) eqn:E; [|exact IH].
    apply PyVal_eqb_eq in E. congruence.
Qed.

Lemma map_fst_combine {A} (target : list PyVal) (points : list A) :
  List.length target = List.length points ->
  map fst (combine target points) = target.
Proof.
  revert points. induction target as [|t r IH]; intros [|p ps] H; simpl in *;
    try discriminate; [reflexivity|].
  f_equal. apply IH. lia.
Qed.

Lemma total_size_scatters (colors : list (PyVal * Color))
    (series : list (PyVal * (list Q * list Q))) :
  total_size (map (scatter_of colors) series) = series_total series.
Proof.
  induction series as [|g r IH]; simpl; [reflexivity|].
  now rewrite IH.
Qed.

Lemma kept_listed (cls : list PyVal) (label : PyVal) :
  cls <> [] -> kept (Some cls) label = py_in label cls.
Proof.
  intros H. unfold kept. destruct cls; [congruence|]. simpl.
  now rewrite negb_involutive.
Qed.

Section DrawLabelled.
Context {B : Backend}.
Variables (cls target : list PyVal) (points : list Point) (v : Visualizer).
Hypothesis Hcls : classes_ v = Some cls.
Hypothesis Hne : cls <> [].
Hypothesis Htarget : target <> [].
Hypothesis Hcolors : enough_colors (List.length cls).

Let plotted := filter (fun lp => py_in (fst lp) cls) (combine target points).
Let palette_ := dict_of PyVal_eqb (zip_colors 0 cls).

Lemma color_classes_listed : color_classes v = cls.
Proof.
  unfold color_classes. rewrite Hcls. destruct cls; [congruence|reflexivity].
Qed.

Lemma build_series_listed :
  build_series (classes_ v) points (Some target) = group_points plotted.
Proof.
  rewrite Hcls, build_series_labelled by assumption.
  unfold plotted. f_equal. apply filter_ext. intros lp.
  now apply kept_listed.
Qed.

Lemma plotted_label_listed k : In k (map fst plotted) -> In k cls.
Proof.
  intros H. apply in_map_iff in H. destruct H as [lp [<- H]].
  apply filter_In in H. now apply py_in_In.
Qed.

(** With class names held by the visualizer and a colour for each, [draw]
    on labelled points returns after one scatter call per distinct listed
    label, by first occurrence, each with the points of its label. *)
Lemma draw_labelled :
  draw points (Some target) v
  = (with_ax v
       (add_scatters (map (scatter_of palette_) (group_points plotted))
          (canvas v)),
     Ok tt)
  /\ map sc_label (map (scatter_of palette_) (group_points plotted))
     = distinct (map fst plotted)
  /\ (forall s, In s (map (scatter_of palette_) (group_points plotted)) ->
        In (sc_label s) cls
        /\ sc_x s = map fst (points_of (sc_label s) target points)
        /\ sc_y s = map snd (points_of (sc_label s) target points)
        /\ sc_alpha s = (7 # 10)%Q
        /\ dict_get PyVal_eqb palette_ (sc_label s) = Some (sc_c s))
  /\ total_size (map (scatter_of palette_) (group_points plotted))
     = List.length plotted.
Proof.
  split; [|split; [|split]].
  - rewrite draw_ok; rewrite build_series_listed, color_classes_listed.
    + reflexivity.
    + intros g Hg. rewrite enough_colors_keys by assumption.
      apply plotted_label_listed. now apply group_points_entry.
  - rewrite map_map. simpl. apply group_points_keys.
  - intros s Hs. apply in_map_iff in Hs. destruct Hs as [g [<- Hg]].
    destruct (group_points_entry _ _ Hg) as [Hk Hv].
    assert (Hin : In (fst g) cls) by now apply plotted_label_listed.
    rewrite group_points_lookup in Hv. unfold plotted in Hv.
    rewrite (filter_label_kept (fun l => py_in l cls)) in Hv
      by now apply py_in_In.
    unfold scatter_of, points_of. simpl. rewrite Hv. simpl.
    rewrite !map_map. repeat split; try assumption.
    destruct (dict_get PyVal_eqb palette_ (fst g)) eqn:E; [reflexivity|].
    exfalso. apply dict_get_None in E. apply E. unfold palette_.
    apply dict_of_keys. now rewrite enough_colors_keys.
  - rewrite total_size_scatters. apply group_points_total.
Qed.

End DrawLabelled.

(** A class list with fewer distinct names than there are distinct labels
    misses some label. *)
Lemma smaller_class_set_misses_label (cls target : list PyVal) :
  (List.length (distinct cls) < List.length (distinct target))%nat ->
  exists label, In label target /\ ~ In label cls.
Proof.
  intros H.
  destruct (existsb (fun l => negb (py_in l cls)) target) eqn:E.
  - apply existsb_exists in E. destruct E as [l [Hl Hn]].
    exists l. split; [assumption|].
    apply py_in_not_In. now apply negb_true_iff.
  - exfalso.
    assert (Hi : incl (distinct target) (distinct cls)).
    { intros x Hx. apply (proj1 (distinct_In _ _)) in Hx.
      apply (proj2 (distinct_In _ _)).
      apply py_in_In.
      destruct (py_in x cls) eqn:Ex; [reflexivity|].
      assert (existsb (fun l => negb (py_in l cls)) target = true).
      { apply existsb_exists. exists x. rewrite Ex. split; [exact Hx | reflexivity]. }
      congruence. }
    pose proof (NoDup_incl_length (distinct_NoDup target) Hi). lia.
Qed.

(** C5, as amended.  When the visualizer holds a non-empty class list with a
    colour for each name, and some label of the per-point label sequence is
    not in the list, [draw] returns without raising; every group it draws is
    keyed by a listed name and holds exactly the points of that label, no
    group is keyed by an unlisted label, and the group sizes sum to the
    number of points with a listed label, which is fewer than n. *)
Theorem draw_drops_unlisted_labels {B : Backend} (cls target : list PyVal)
    (points : list Point) (v : Visualizer) :
  classes_ v = Some cls ->
  cls <> [] ->
  List.length target = List.length points ->
  enough_colors (List.length cls) ->
  (exists label, In label target /\ ~ In label cls) ->
  exists new,
    draw points (Some target) v
    = (with_ax v (add_scatters new (canvas v)), Ok tt)
    /\ (forall s, In s new ->
          In (sc_label s) cls
          /\ sc_x s = map fst (points_of (sc_label s) target points)
          /\ sc_y s = map snd (points_of (sc_label s) target points))
    /\ (forall label, ~ In label cls -> ~ In label (map sc_label new))
    /\ total_size new = List.length (filter (fun l => py_in l cls) target)
    /\ (total_size new < List.length points)%nat.
Proof.
  intros Hc Hne Hlen Hcol [label [Hin Hout]].
  assert (Ht : target <> []) by (intros ->; destruct Hin).
  destruct (draw_labelled cls target points v Hc Hne Ht Hcol)
    as [Hd [Hk [Hg Hs]]].
  cbv zeta in *.
  eexists. split; [exact Hd|].
  assert (Htot : List.length
                   (filter (fun lp => py_in (fst lp) cls) (combine target points))
                 = List.length (filter (fun l => py_in l cls) target))
    by now apply (filter_fst_combine_length (fun l => py_in l cls)).
  split; [|split; [|split]].
  - intros s Hs'. destruct (Hg s Hs') as [H1 [H2 [H3 _]]]. auto.
  - intros l Hl Hin'. apply in_map_iff in Hin'.
    destruct Hin' as [s [<- Hs']]. apply Hl. now apply (Hg s Hs').
  - now rewrite Hs.
  - rewrite Hs, Htot, <- Hlen.
    apply (filter_length_lt _ _ label Hin). now apply py_in_not_In.
Qed.

Lemma draw_drops_unlisted_labels_witness :
  exists new,
    draw (B:=list_backend) [(1, 2); (3, 4); (5, 6)]%Q
      (Some [PStr "a"; PStr "b"; PStr "a"])
      (with_classes default_visualizer (Some [PStr "a"]))
    = (with_ax (with_classes default_visualizer (Some [PStr "a"]))
         (add_scatters new blank_axes), Ok tt)
    /\ (total_size new < 3)%nat.
Proof.
  destruct (draw_drops_unlisted_labels (B:=list_backend) [PStr "a"]
              [PStr "a"; PStr "b"; PStr "a"] [(1, 2); (3, 4); (5, 6)]%Q
              (with_classes default_visualizer (Some [PStr "a"])))
    as [new [H1 [_ [_ [_ H2]]]]].
  - reflexivity.
  - discriminate.
  - reflexivity.
  - intros i Hi. simpl in Hi.
    destruct i as [|i]; [discriminate | lia].
  - exists (PStr "b"). split; [simpl; auto|].
    simpl. intros [H|H]; [discriminate | exact H].
  - exists new. split; [exact H1 | exact H2].
Defined.

(** C5 as stated fails for a supplied class list that is empty: it is
    smaller than the observed label set, yet nothing is filtered.  A point
    labelled None is drawn, so the sizes sum to n, and a point labelled "a"
    makes [draw] raise KeyError. *)
Lemma draw_empty_class_list_filters_nothing :
  classes_ (with_classes default_visualizer (Some [])) = Some []
  /\ ~ In PNone []
  /\ draw (B:=list_backend) [(1, 2)]%Q (Some [PNone])
       (with_classes default_visualizer (Some []))
     = (with_ax (with_classes default_visualizer (Some []))
          (add_scatters [mkScatter [1%Q] [2%Q] "#0272a2" (7 # 10) PNone]
             blank_axes), Ok tt)
  /\ total_size [mkScatter [1%Q] [2%Q] "#0272a2" (7 # 10) PNone] = 1%nat
  /\ snd (draw (B:=list_backend) [(1, 2)]%Q (Some [PStr "a"])
            (with_classes default_visualizer (Some [])))
     = Raise (KeyError (PStr "a")).
Proof.
  split; [reflexivity|]. split; [intros []|].
  split; [vm_compute; reflexivity|]. split; reflexivity.
Qed.

Lemma group_unlabelled_acc (points : list Point) (xs ys : list Q) :
  fold_left
    (fun series lp => series_append series (fst lp) (fst (snd lp)) (snd (snd lp)))
    (map (fun p => (PNone, p)) points) [(PNone, (xs, ys))]
  = [(PNone, ((xs ++ map fst points)%list, (ys ++ map snd points)%list))].
Proof.
  revert xs ys. induction points as [|p r IH]; intros xs ys; simpl.
  - now rewrite !app_nil_r.
  - unfold series_append at 2. simpl. rewrite IH, <- !app_assoc. reflexivity.
Qed.

Lemma group_unlabelled (points : list Point) :
  points <> [] ->
  group_points (map (fun p => (PNone, p)) points)
  = [(PNone, (map fst points, map snd points))].
Proof.
  destruct points as [|p r]; [congruence|]. intros _.
  unfold group_points. simpl. unfold series_append at 2. simpl.
  apply group_unlabelled_acc.
Qed.

(** C6, as amended.  With at least one point, no label sequence, no class
    names held by the visualizer and at least one colour, [draw] returns
    after exactly one scatter call, keyed by None, which holds all n points
    in input order. *)
Theorem draw_unlabelled {B : Backend} (points : list Point)
    (target : option (list PyVal)) (v : Visualizer) (c : Color) :
  truthy target = false ->
  truthy (classes_ v) = false ->
  points <> [] ->
  get_color_cycle 0 = Some c ->
  draw points target v
  = (with_ax v
       (add_scatters
          [mkScatter (map fst points) (map snd points) c (7 # 10) PNone]
          (canvas v)),
     Ok tt)
  /\ total_size [mkScatter (map fst points) (map snd points) c (7 # 10) PNone]
     = List.length points.
Proof.
  intros Ht Hc Hp Hcol.
  assert (Hcc : color_classes v = [PNone])
    by (unfold color_classes; now rewrite Hc).
  split.
  - rewrite draw_ok; rewrite build_series_unlabelled, group_unlabelled
      by assumption; rewrite Hcc; simpl; rewrite Hcol.
    + reflexivity.
    + intros g [<-|[]]. simpl. auto.
  - simpl. unfold group_size. simpl. rewrite length_map. apply Nat.add_0_r.
Qed.

Lemma draw_unlabelled_witness :
  draw (B:=list_backend) [(1, 2); (3, 4)]%Q None default_visualizer
  = (with_ax default_visualizer
       (add_scatters
          [mkScatter [1; 3]%Q [2; 4]%Q "#0272a2" (7 # 10) PNone] blank_axes),
     Ok tt).
Proof.
  refine (proj1 (draw_unlabelled (B:=list_backend) [(1, 2); (3, 4)]%Q None
                   default_visualizer "#0272a2" _ _ _ _)).
  - reflexivity.
  - reflexivity.
  - discriminate.
  - reflexivity.
Defined.

(** C6 as stated fails.  With no points and no labels [draw] issues no
    scatter call at all; and with class names held by the visualizer the
    colour of the None group is missing, so [draw] raises KeyError. *)
Lemma draw_unlabelled_not_one_group :
  draw (B:=list_backend) [] None default_visualizer
  = (with_ax default_visualizer blank_axes, Ok tt)
  /\ ax_scatters blank_axes = []
  /\ snd (draw (B:=list_backend) [(1, 2)]%Q None
            (with_classes default_visualizer (Some [PStr "a"; PStr "b"])))
     = Raise (KeyError PNone).
Proof. repeat split. Qed.

(** ** Labels through fit *)

Lemma string_labels_str (l : list PyVal) :
  (forall label, In label l -> exists s, label = PStr s) ->
  map (fun label => PStr (py_str label)) l = l.
Proof.
  induction l as [|a r IH]; simpl; intros H; [reflexivity|].
  destruct (H a (or_introl eq_refl)) as [s ->]. simpl.
  f_equal. apply IH. auto.
Qed.

Lemma set_iter_nonempty {B : Backend} {L : BackendLaws B} (y : list PyVal) :
  y <> [] -> set_iter y <> [].
Proof.
  destruct y as [|a r]; [congruence|]. intros _ E.
  assert (H : In a (set_iter (a :: r))) by (apply set_iter_In; now left).
  rewrite E in H. destruct H.
Qed.

(** What [fit] draws for labels that are all strings: one group per
    distinct label, each with the points of its label, n points in all. *)
Lemma fit_string_labels {B : Backend} {L : BackendLaws B} (X : Matrix)
    (y : list PyVal) (v : Visualizer) (p : Pipeline) (vecs : list Point) :
  y <> [] ->
  List.length y = List.length X ->
  classes_ v = None ->
  (forall label, In label y -> exists s, label = PStr s) ->
  transformer_ v = Some p ->
  fit_transform p X = Ok vecs ->
  enough_colors (List.length (distinct y)) ->
  exists v' new,
    fit X (Some y) v = (v', Ok tt)
    /\ ax v' = Some (add_scatters new (canvas v))
    /\ map sc_label new = distinct y
    /\ (forall s, In s new ->
          sc_x s = map fst (points_of (sc_label s) y vecs)
          /\ sc_y s = map snd (points_of (sc_label s) y vecs))
    /\ total_size new = List.length X.
Proof.
  intros Hy Hlen Hc Hs Ht Hf Hcol.
  pose proof (fit_transform_rows _ _ _ Hf) as Hrows.
  assert (Hstored : stored_classes v (Some y) = Some (set_iter y)).
  { unfold stored_classes. rewrite Hc. destruct y; [congruence|]. simpl.
    f_equal. apply string_labels_str. intros l Hl. apply Hs.
    now apply set_iter_In. }
  assert (Hperm : Permutation (set_iter y) (distinct y)).
  { apply NoDup_Permutation;
      [apply set_iter_NoDup | apply distinct_NoDup |].
    intros x. rewrite set_iter_In, distinct_In. tauto. }
  rewrite fit_eq. cbv zeta. rewrite Ht, Hf, Hstored.
  set (w := with_count (with_classes v (Some (set_iter y)))
              (n_instances_ v + Z.of_nat (List.length vecs))).
  destruct (draw_labelled (set_iter y) y vecs w eq_refl
              (set_iter_nonempty y Hy) Hy) as [Hd [Hk [Hg Htot]]].
  { rewrite (Permutation_length Hperm). exact Hcol. }
  cbv zeta in *.
  assert (Hall : filter (fun lp => py_in (fst lp) (set_iter y)) (combine y vecs)
                 = combine y vecs).
  { apply filter_all. intros [l pt] Hin. simpl. apply py_in_In.
    apply set_iter_In. eapply in_combine_l. exact Hin. }
  rewrite Hall in *.
  rewrite map_fst_combine in Hk by congruence.
  do 2 eexists. split; [exact Hd|]. split; [reflexivity|].
  split; [exact Hk|]. split.
  - intros s Hs'. destruct (Hg s Hs') as [_ [H1 [H2 _]]]. auto.
  - rewrite Htot, length_combine. lia.
Qed.

(** C2, evaluated on the code.  [fit] turns the labels into strings for the
    class list and [draw] then looks the labels themselves up in it: with
    labels none of which is a string and no class names configured, [fit]
    returns having drawn no group at all, whatever the number of distinct
    labels. *)
Theorem fit_drops_non_string_labels {B : Backend} {L : BackendLaws B}
    (X : Matrix) (y : list PyVal) (v : Visualizer) (p : Pipeline)
    (vecs : list Point) :
  y <> [] ->
  classes_ v = None ->
  (forall label, In label y -> forall s, label <> PStr s) ->
  transformer_ v = Some p ->
  fit_transform p X = Ok vecs ->
  exists v',
    fit X (Some y) v = (v', Ok tt)
    /\ ax v' = Some (add_scatters [] (canvas v))
    /\ drawn v' = ax_scatters (canvas v).
Proof.
  intros Hy Hc Hs Ht Hf.
  rewrite fit_eq. cbv zeta. rewrite Ht, Hf.
  assert (Hstored : stored_classes v (Some y)
                    = Some (map (fun label => PStr (py_str label)) (set_iter y))).
  { unfold stored_classes. rewrite Hc. destruct y; [congruence|]. reflexivity. }
  rewrite Hstored.
  set (cls := map (fun label => PStr (py_str label)) (set_iter y)).
  set (w := with_count (with_classes v (Some cls))
              (n_instances_ v + Z.of_nat (List.length vecs))).
  assert (Hcls : cls <> []).
  { unfold cls. intros E. apply map_eq_nil in E.
    now apply (set_iter_nonempty y Hy). }
  assert (Hseries : build_series (classes_ w) vecs (Some y) = []).
  { change (classes_ w) with (Some cls).
    rewrite build_series_labelled by assumption.
    replace (filter (fun lp => kept (Some cls) (fst lp)) (combine y vecs))
      with (@nil (PyVal * Point)); [reflexivity|].
    symmetry. apply filter_none.
    intros [l pt] Hin. simpl. rewrite kept_listed by assumption.
    apply py_in_not_In. unfold cls. intros Hm.
    apply in_map_iff in Hm. destruct Hm as [l' [E _]].
    apply in_combine_l in Hin. eapply (Hs l Hin). symmetry. exact E. }
  eexists. rewrite draw_ok; rewrite Hseries.
  - split; [reflexivity|]. split; [reflexivity|].
    unfold drawn. simpl. now rewrite app_nil_r.
  - intros g [].
Qed.

Lemma fit_drops_non_string_labels_witness :
  exists v',
    fit (B:=list_backend) [[1; 2]; [3; 4]]%Q (Some [PInt 0; PInt 1])
      default_visualizer = (v', Ok tt)
    /\ drawn v' = []
    /\ List.length (distinct [PInt 0; PInt 1]) = 2%nat.
Proof.
  destruct (fit_drops_non_string_labels (B:=list_backend)
              (L:=list_backend_laws) [[1; 2]; [3; 4]]%Q [PInt 0; PInt 1]
              default_visualizer
              (mkPipeline [("svd", TruncatedSVD 50); ("tsne", TSNE 2 [])])
              [(1, 2); (3, 4)]%Q)
    as [v' [H1 [_ H2]]].
  - discriminate.
  - reflexivity.
  - intros label [<-|[<-|[]]] s; discriminate.
  - reflexivity.
  - reflexivity.
  - exists v'. split; [exact H1|]. split; [exact H2 | reflexivity].
Defined.

(** ** Finalizer *)

(** The legend that [finalize] requests lies to the right of the axes,
    centred on their mid-height, whatever its size. *)
Lemma legend_outside_centered (w h : Q) :
  exists box,
    legend_box (mkLegend "center left" (1%Q, 1 # 2)) w h = Some box
    /\ x0 box = 1%Q
    /\ (y0 box + height box / 2 == 1 # 2)%Q
    /\ width box = w /\ height box = h.
Proof.
  eexists. split; [reflexivity|]. simpl.
  split; [reflexivity|]. split; [field | split; reflexivity].
Qed.

(** C9.  On a visualizer that has axes, [finalize] returns; the title is
    "TSNE Projection of <n> Documents" with n the instance counter in
    decimal, and both tick lists are empty.  When class names are held the
    width of the axes is multiplied by 0.8, the rest of the position kept,
    and a legend is requested whose centre-left point is pinned at (1, 0.5)
    in axes fractions: its box starts at the right edge of the axes and is
    centred on their mid-height.  When no class names are held, position
    and legend are untouched. *)
Theorem finalize_effects (v : Visualizer) (a : Axes) :
  ax v = Some a ->
  exists a',
    finalize v = (with_ax v a', Ok tt)
    /\ ax_title a'
       = Some ("TSNE Projection of "
               ++ NilZero.string_of_int (Z.to_int (n_instances_ v))
               ++ " Documents")
    /\ ax_xticks a' = [] /\ ax_yticks a' = []
    /\ ax_scatters a' = ax_scatters a
    /\ (truthy (classes_ v) = true ->
        ax_position a'
        = mkBbox (x0 (ax_position a)) (y0 (ax_position a))
            (width (ax_position a) * (8 # 10)) (height (ax_position a))
        /\ (width (ax_position a') == (80 # 100) * width (ax_position a))%Q
        /\ ax_legend a' = Some (mkLegend "center left" (1%Q, 1 # 2))
        /\ forall w h,
             exists box,
               legend_box (mkLegend "center left" (1%Q, 1 # 2)) w h = Some box
               /\ x0 box = 1%Q
               /\ (y0 box + height box / 2 == 1 # 2)%Q
               /\ width box = w /\ height box = h)
    /\ (truthy (classes_ v) = false ->
        ax_position a' = ax_position a /\ ax_legend a' = ax_legend a).
Proof.
  intros Ha. destruct v as [a0 c n co cm t]. simpl in Ha. subst a0.
  unfold finalize, set_title, title_text, on_ax, bind, get_self, set_ax, ret.
  cbn [ax classes_ n_instances_ colors colormap transformer_].
  destruct (truthy c) eqn:Ec.
  - eexists. split; [reflexivity|]. cbn.
    repeat (split; [reflexivity|]). split.
    + intros _. split; [reflexivity|]. split; [ring|].
      split; [reflexivity|]. apply legend_outside_centered.
    + discriminate.
  - eexists. split; [reflexivity|]. cbn.
    repeat (split; [reflexivity|]). split.
    + discriminate.
    + intros _. split; reflexivity.
Qed.

Lemma finalize_effects_witness :
  exists a',
    finalize
      (mkVisualizer (Some blank_axes) (Some [PStr "a"; PStr "b"]) 100 None None
         (Some (mkPipeline [("tsne", TSNE 2 [])])))
    = (with_ax
         (mkVisualizer (Some blank_axes) (Some [PStr "a"; PStr "b"]) 100 None
            None (Some (mkPipeline [("tsne", TSNE 2 [])]))) a', Ok tt)
    /\ ax_title a' = Some "TSNE Projection of 100 Documents"
    /\ ax_xticks a' = [] /\ ax_yticks a' = []
    /\ ax_legend a' = Some (mkLegend "center left" (1%Q, 1 # 2)).
Proof.
  destruct (finalize_effects
              (mkVisualizer (Some blank_axes) (Some [PStr "a"; PStr "b"]) 100
                 None None (Some (mkPipeline [("tsne", TSNE 2 [])])))
              blank_axes eq_refl)
    as [a' [H1 [H2 [H3 [H4 [_ [H5 _]]]]]]].
  exists a'. split; [exact H1|]. split; [exact H2|].
  split; [exact H3|]. split; [exact H4|].
  exact (proj1 (proj2 (proj2 (H5 eq_refl)))).
Defined.


(** * Further properties of the methods *)

(** ** The plotting loop as a function of the axes *)

Lemma for_each_plot (colors : list (PyVal * Color)) series v a :
  ax v = Some a ->
  for_each series
    (fun g =>
       match dict_get PyVal_eqb colors (fst g) with
       | Some c =>
           on_ax (add_scatter
                    (mkScatter (fst (snd g)) (snd (snd g)) c (7 # 10) (fst g)))
       | None => raise (KeyError (fst g))
       end) v
  = (with_ax v (fst (plot_groups colors series a)),
     plot_outcome (snd (plot_groups colors series a))).
Proof.
  revert v a. induction series as [|g r IH]; intros v a Ha.
  - simpl. unfold ret. now rewrite with_ax_id.
  - cbn [for_each plot_groups]. unfold bind at 1.
    destruct (dict_get PyVal_eqb colors (fst g)) as [c|] eqn:Ec.
    + unfold on_ax, bind, get_self. rewrite Ha. unfold set_ax.
      rewrite (IH _ (add_scatter
                       (mkScatter (fst (snd g)) (snd (snd g)) c (7 # 10) (fst g))
                       a)) by reflexivity.
      reflexivity.
    + unfold raise. simpl. now rewrite with_ax_id.
Qed.

(** [draw] in one equation: it paints on the canvas and touches no other
    attribute. *)
Lemma draw_eq {B : Backend} points target v :
  draw points target v
  = (with_ax v
       (fst (plot_groups (dict_of PyVal_eqb (zip_colors 0 (color_classes v)))
               (build_series (classes_ v) points target) (canvas v))),
     plot_outcome
       (snd (plot_groups (dict_of PyVal_eqb (zip_colors 0 (color_classes v)))
               (build_series (classes_ v) points target) (canvas v)))).
Proof.
  unfold draw, canvas. unfold bind at 1. unfold get_self at 1.
  unfold bind at 1. destruct (ax v) as [a|] eqn:Ha.
  - unfold ret at 1. unfold bind, get_self. cbv zeta.
    now apply for_each_plot.
  - unfold set_ax at 1. unfold bind, get_self. cbv zeta.
    rewrite (for_each_plot
               (dict_of PyVal_eqb (zip_colors 0 (color_classes v)))
               (build_series (classes_ v) points target) _ plt_gca)
      by reflexivity.
    reflexivity.
Qed.

Lemma add_scatters_app (l1 l2 : list Scatter) (a : Axes) :
  add_scatters l2 (add_scatters l1 a) = add_scatters (l1 ++ l2) a.
Proof. unfold add_scatters. simpl. now rewrite app_assoc. Qed.

Lemma add_scatter_one (s : Scatter) (a : Axes) :
  add_scatter s a = add_scatters [s] a.
Proof. reflexivity. Qed.

(** The loop draws the groups that precede the first one without a
    colour, and stops there. *)
Lemma plot_groups_stop (colors : list (PyVal * Color)) pre g post a :
  (forall h, In h pre -> dict_get PyVal_eqb colors (fst h) <> None) ->
  dict_get PyVal_eqb colors (fst g) = None ->
  plot_groups colors (pre ++ g :: post) a
  = (add_scatters (map (scatter_of colors) pre) a, Some (fst g)).
Proof.
  revert a. induction pre as [|h r IH]; intros a Hpre Hg; simpl.
  - rewrite Hg. now rewrite add_scatters_nil.
  - assert (Hh : dict_get PyVal_eqb colors (fst h) <> None)
      by (apply Hpre; now left).
    destruct (dict_get PyVal_eqb colors (fst h)) as [c|] eqn:Ec; [|congruence].
    rewrite IH by (auto; intros; apply Hpre; now right).
    rewrite add_scatter_one, add_scatters_app. simpl.
    unfold scatter_of at 2. now rewrite Ec.
Qed.

Lemma plot_groups_all (colors : list (PyVal * Color)) series a :
  (forall h, In h series -> dict_get PyVal_eqb colors (fst h) <> None) ->
  plot_groups colors series a
  = (add_scatters (map (scatter_of colors) series) a, None).
Proof.
  revert a. induction series as [|h r IH]; intros a Hs; simpl.
  - now rewrite add_scatters_nil.
  - assert (Hh : dict_get PyVal_eqb colors (fst h) <> None)
      by (apply Hs; now left).
    destruct (dict_get PyVal_eqb colors (fst h)) as [c|] eqn:Ec; [|congruence].
    rewrite IH by (intros; apply Hs; now right).
    rewrite add_scatter_one, add_scatters_app. simpl.
    unfold scatter_of at 2. now rewrite Ec.
Qed.

(** Whatever the colours, the loop only appends the scatter calls of a
    prefix of the series. *)
Lemma plot_groups_prefix (colors : list (PyVal * Color)) series a :
  exists pre post,
    series = (pre ++ post)%list
    /\ fst (plot_groups colors series a)
       = add_scatters (map (scatter_of colors) pre) a
    /\ (snd (plot_groups colors series a) = None -> post = [])
    /\ (forall k, snd (plot_groups colors series a) = Some k ->
          exists g rest, post = g :: rest /\ fst g = k
                         /\ dict_get PyVal_eqb colors k = None).
Proof.
  revert a. induction series as [|h r IH]; intros a; simpl.
  - exists [], []. simpl. rewrite add_scatters_nil.
    repeat split; auto. discriminate.
  - destruct (dict_get PyVal_eqb colors (fst h)) as [c|] eqn:Ec.
    + destruct (IH (add_scatter
                      (mkScatter (fst (snd h)) (snd (snd h)) c (7 # 10) (fst h))
                      a)) as [pre [post [E [H1 [H2 H3]]]]].
      exists (h :: pre), post. split; [simpl; now rewrite E|].
      split; [|split; assumption].
      rewrite H1, add_scatter_one, add_scatters_app. simpl.
      unfold scatter_of at 2. now rewrite Ec.
    + exists [], (h :: r). simpl. rewrite add_scatters_nil.
      repeat split; auto; [discriminate|].
      intros k Hk. inversion Hk. subst. exists h, r. auto.
Qed.

(** ** More on draw *)


(** X2.  On a visualizer that holds no class names, [draw] with a label
    sequence whose first label is not None raises the KeyError of that
    label and draws nothing: the colour table then has the key None
    only. *)
Theorem draw_labels_without_class_names {B : Backend} (label : PyVal)
    (rest : list PyVal) (p : Point) (ps : list Point) (v : Visualizer) :
  truthy (classes_ v) = false ->
  label <> PNone ->
  draw (p :: ps) (Some (label :: rest)) v
  = (with_ax v (canvas v), Raise (KeyError label)).
Proof.
  intros Hc Hl.
  assert (Hcc : color_classes v = [PNone])
    by (unfold color_classes; now rewrite Hc).
  assert (Hcol : dict_get PyVal_eqb
                   (dict_of PyVal_eqb (zip_colors 0 (color_classes v))) label
                 = None).
  { apply dict_get_None. rewrite dict_of_keys, Hcc. simpl.
    destruct (get_color_cycle 0); simpl; [|tauto].
    intros [H|[]]. congruence. }
  assert (Hs : exists g post,
             build_series (classes_ v) (p :: ps) (Some (label :: rest))
             = g :: post /\ fst g = label).
  { rewrite build_series_labelled by discriminate.
    rewrite filter_all.
    - pose proof (group_points_keys (combine (label :: rest) (p :: ps))) as Hk.
      destruct (group_points (combine (label :: rest) (p :: ps)))
        as [|g post]; simpl in Hk.
      + discriminate.
      + exists g, post. inversion Hk. auto.
    - intros lp _. unfold kept. now rewrite Hc. }
  destruct Hs as [g [post [Hs Hg]]].
  rewrite draw_eq, Hs.
  rewrite (plot_groups_stop _ [] g post);
    [| intros h [] | now rewrite Hg].
  simpl. now rewrite add_scatters_nil, Hg.
Qed.

Lemma draw_labels_without_class_names_witness :
  draw (B:=list_backend) [(1, 2); (3, 4)]%Q (Some [PStr "a"; PStr "b"])
    default_visualizer
  = (with_ax default_visualizer blank_axes, Raise (KeyError (PStr "a"))).
Proof.
  refine (draw_labels_without_class_names (B:=list_backend) (PStr "a")
            [PStr "b"] (1, 2)%Q [(3, 4)%Q] default_visualizer _ _).
  - reflexivity.
  - discriminate.
Defined.

(** X3.  The [colors] and [colormap] arguments of the visualizer have no
    effect on [draw]: with any other values it makes the same scatter
    calls, with the same colours, and ends the same way. *)
Theorem draw_ignores_colors {B : Backend} (points : list Point)
    (target : option (list PyVal)) (v : Visualizer)
    (co : option (list Color)) (cm : option string) :
  fst (draw points target (with_palette v co cm))
  = with_palette (fst (draw points target v)) co cm
  /\ snd (draw points target (with_palette v co cm))
     = snd (draw points target v).
Proof. rewrite !draw_eq. split; reflexivity. Qed.

Lemma dict_set_fresh {V : Type} (d : list (PyVal * V)) (k : PyVal) (x : V) :
  ~ In k (map fst d) -> dict_set PyVal_eqb d k x = (d ++ [(k, x)])%list.
Proof.
  induction d as [|[k0 v0] r IH]; simpl; intros H; [reflexivity|].
  destruct (PyVal_eqb k k0) eqn:E.
  - apply PyVal_eqb_eq in E. subst. tauto.
  - rewrite IH by tauto. reflexivity.
Qed.

Lemma dict_of_acc_NoDup {V : Type} (pairs acc : list (PyVal * V)) :
  NoDup (map fst (acc ++ pairs)) ->
  fold_left (fun d kv => dict_set PyVal_eqb d (fst kv) (snd kv)) pairs acc
  = (acc ++ pairs)%list.
Proof.
  revert acc. induction pairs as [|[k x] r IH]; intros acc H; simpl.
  - now rewrite app_nil_r.
  - rewrite dict_set_fresh.
    + rewrite IH; rewrite <- app_assoc; [reflexivity | exact H].
    + rewrite map_app in H. simpl in H. apply NoDup_remove_2 in H.
      intros Hin. apply H. apply in_or_app. now left.
Qed.

(** A list of pairs with distinct keys is its own dictionary. *)
Lemma dict_of_NoDup {V : Type} (pairs : list (PyVal * V)) :
  NoDup (map fst pairs) -> dict_of PyVal_eqb pairs = pairs.
Proof. intros H. unfold dict_of. now rewrite dict_of_acc_NoDup. Qed.

Lemma zip_colors_get {B : Backend} (cls : list PyVal) (i j : nat) (k : PyVal) :
  NoDup cls ->
  (forall n, (i <= n < i + List.length cls)%nat -> get_color_cycle n <> None) ->
  nth_error cls j = Some k ->
  dict_get PyVal_eqb (zip_colors i cls) k = get_color_cycle (i + j).
Proof.
  revert i j. induction cls as [|c r IH]; intros i j Hnd Hcol Hj.
  - destruct j; discriminate.
  - simpl. destruct (get_color_cycle i) as [col|] eqn:Ei.
    + destruct j as [|j]; simpl in Hj.
      * inversion Hj. subst. simpl. rewrite PyVal_eqb_refl.
        now rewrite Nat.add_0_r, Ei.
      * inversion Hnd as [|? ? Hn Hnd']. subst. simpl.
        assert (Hk : In k r) by (eapply nth_error_In; exact Hj).
        destruct (PyVal_eqb k c) eqn:E.
        { apply PyVal_eqb_eq in E. subst. contradiction. }
        rewrite (IH (S i) j Hnd'); [f_equal; lia | | exact Hj].
        intros n Hn'. apply Hcol. simpl. lia.
    + exfalso. apply (Hcol i); [simpl; lia | exact Ei].
Qed.

(** X4.  With distinct class names and a colour for each, [draw] gives the
    group of the i-th class name the i-th colour of the colour cycle. *)
Theorem draw_colours_by_position {B : Backend} (cls target : list PyVal)
    (points : list Point) (v : Visualizer) :
  classes_ v = Some cls ->
  cls <> [] ->
  target <> [] ->
  NoDup cls ->
  enough_colors (List.length cls) ->
  exists new,
    draw points (Some target) v
    = (with_ax v (add_scatters new (canvas v)), Ok tt)
    /\ forall s i,
         In s new -> nth_error cls i = Some (sc_label s) ->
         get_color_cycle i = Some (sc_c s).
Proof.
  intros Hc Hne Ht Hnd Hcol.
  destruct (draw_labelled cls target points v Hc Hne Ht Hcol)
    as [Hd [_ [Hg _]]].
  cbv zeta in *. eexists. split; [exact Hd|].
  intros s i Hs Hi. destruct (Hg s Hs) as [_ [_ [_ [_ Hp]]]].
  rewrite dict_of_NoDup in Hp by (now rewrite enough_colors_keys).
  rewrite (zip_colors_get cls 0 i (sc_label s) Hnd) in Hp.
  - exact Hp.
  - intros n Hn. apply Hcol. lia.
  - exact Hi.
Qed.

Lemma draw_colours_by_position_witness :
  exists new,
    draw (B:=list_backend) [(1, 2); (3, 4); (5, 6)]%Q
      (Some [PStr "b"; PStr "a"; PStr "b"])
      (with_classes default_visualizer (Some [PStr "a"; PStr "b"]))
    = (with_ax (with_classes default_visualizer (Some [PStr "a"; PStr "b"]))
         (add_scatters new blank_axes), Ok tt)
    /\ forall s, In s new -> sc_label s = PStr "b" -> sc_c s = "#9fc377".
Proof.
  destruct (draw_colours_by_position (B:=list_backend) [PStr "a"; PStr "b"]
              [PStr "b"; PStr "a"; PStr "b"] [(1, 2); (3, 4); (5, 6)]%Q
              (with_classes default_visualizer (Some [PStr "a"; PStr "b"])))
    as [new [H1 H2]].
  - reflexivity.
  - discriminate.
  - discriminate.
  - repeat constructor; simpl; intuition discriminate.
  - intros i Hi. simpl in Hi.
    destruct i as [|[|i]]; [discriminate | discriminate | lia].
  - exists new. split; [exact H1|].
    intros s Hs Hl. specialize (H2 s 1%nat Hs). rewrite Hl in H2.
    specialize (H2 eq_refl). simpl in H2. now inversion H2.
Defined.

(** X5.  [draw] pairs labels with points by [zip]: with a non-empty label
    sequence, whatever lies beyond the shorter of the two sequences is
    ignored without an error. *)
Theorem draw_truncates_to_shorter {B : Backend} (target : list PyVal)
    (points : list Point) (v : Visualizer) :
  target <> [] ->
  draw points (Some target) v
  = draw (firstn (Nat.min (List.length target) (List.length points)) points)
      (Some (firstn (Nat.min (List.length target) (List.length points)) target))
      v.
Proof.
  intros Ht. rewrite !draw_eq.
  assert (E : build_series (classes_ v) points (Some target)
              = build_series (classes_ v)
                  (firstn (Nat.min (List.length target) (List.length points))
                     points)
                  (Some (firstn (Nat.min (List.length target)
                                   (List.length points)) target))).
  { rewrite build_series_labelled by assumption.
    destruct points as [|p ps].
    - rewrite Nat.min_0_r. simpl. now rewrite combine_nil.
    - destruct target as [|t tr]; [congruence|].
      rewrite build_series_labelled by (simpl; discriminate).
      rewrite <- combine_firstn, <- length_combine, firstn_all.
      reflexivity. }
  now rewrite E.
Qed.

Lemma draw_truncates_to_shorter_witness :
  draw (B:=list_backend) [(1, 2); (3, 4); (5, 6)]%Q (Some [PStr "a"])
    (with_classes default_visualizer (Some [PStr "a"]))
  = draw (B:=list_backend) [(1, 2)]%Q (Some [PStr "a"])
      (with_classes default_visualizer (Some [PStr "a"])).
Proof.
  refine (draw_truncates_to_shorter (B:=list_backend) [PStr "a"]
            [(1, 2); (3, 4); (5, 6)]%Q
            (with_classes default_visualizer (Some [PStr "a"])) _).
  discriminate.
Defined.

(** ** More on the pipeline builder and the constructor *)

Lemma new_TSNE_Ok_kwargs {B : Backend} kw v w t :
  new_TSNE kw v = (w, Ok t) -> tsne_kwargs_ok kw = true.
Proof.
  unfold new_TSNE, tsne_kwargs_ok, ret, raise.
  destruct (existsb (String.eqb "n_components") (map fst kw)); [discriminate|].
  destruct (forallb _ (map fst kw)); [reflexivity | discriminate].
Qed.

(** X6.  [make_transformer] returns a pipeline exactly for the selectors
    None, "", "svd" and "pca" together with keyword arguments the embedding
    accepts ([n_components] not among them); every other call raises.  The
    empty string is taken for None. *)
Theorem make_transformer_succeeds_iff {B : Backend} (decompose : option string)
    (n : Z) (kw : Kwargs) (v : Visualizer) :
  ((exists p, make_transformer decompose n kw v = (v, Ok p))
   <-> (decompose = None \/ decompose = Some "" \/ decompose = Some "svd"
        \/ decompose = Some "pca")
       /\ tsne_kwargs_ok kw = true)
  /\ make_transformer (Some "") n kw v = make_transformer None n kw v.
Proof.
  split; [|reflexivity]. split.
  - intros [p H]. unfold make_transformer, bind, ret, raise in H.
    destruct decompose as [d|].
    + destruct d as [|c r].
      * cbn -[new_TSNE] in H.
        destruct (new_TSNE kw v) as [w [t|e]] eqn:Et; [|discriminate].
        split; [auto | eapply new_TSNE_Ok_kwargs; exact Et].
      * remember (String c r) as d eqn:Ed.
        destruct (fails_validation (Some d)); [discriminate|].
        assert (Htr : truthy_str (Some d) = true) by (subst d; reflexivity).
        rewrite Htr in H. unfold decompositions in H. cbn [dict_get] in H.
        destruct (String.eqb d "svd") eqn:E1.
        { apply String.eqb_eq in E1.
          destruct (new_TSNE kw v) as [w [t|e]] eqn:Et; [|discriminate].
          split; [rewrite E1; auto | eapply new_TSNE_Ok_kwargs; exact Et]. }
        destruct (String.eqb d "pca") eqn:E2; [|discriminate].
        apply String.eqb_eq in E2.
        destruct (new_TSNE kw v) as [w [t|e]] eqn:Et; [|discriminate].
        split; [rewrite E2; auto | eapply new_TSNE_Ok_kwargs; exact Et].
    + cbn -[new_TSNE] in H.
      destruct (new_TSNE kw v) as [w [t|e]] eqn:Et; [|discriminate].
      split; [auto | eapply new_TSNE_Ok_kwargs; exact Et].
  - intros [Hd Hk].
    destruct Hd as [-> | [-> | [-> | ->]]];
      unfold make_transformer, bind, ret;
      match goal with
      | |- context [fails_validation ?x] =>
          change (fails_validation x) with false
      end;
      cbn -[new_TSNE]; rewrite (new_TSNE_ok kw v Hk); eexists; reflexivity.
Qed.

(** What a returned pipeline looks like, and that the result does not
    depend on the visualizer. *)
Lemma make_transformer_Ok_inv {B : Backend} d n kw v v' p :
  make_transformer d n kw v = (v', Ok p) ->
  v' = v
  /\ (exists pre, steps p = (pre ++ [("tsne", TSNE 2 kw)])%list
                  /\ (List.length pre <= 1)%nat)
  /\ forall u, make_transformer d n kw u = (u, Ok p).
Proof.
  unfold make_transformer, bind, ret, raise.
  destruct (fails_validation d); [discriminate|].
  destruct (truthy_str d).
  - destruct (dict_get _ _ _) as [klass|]; [|discriminate].
    destruct (new_TSNE kw v) as [w [t|e]] eqn:Et; [|discriminate].
    pose proof (new_TSNE_Ok_kwargs _ _ _ _ Et) as Hk.
    rewrite (new_TSNE_ok kw v Hk) in Et. inversion Et. subst w t.
    intros H. inversion H. subst v' p. split; [reflexivity|]. split.
    + eexists [_]. simpl. split; [reflexivity | lia].
    + intros u. now rewrite (new_TSNE_ok kw u Hk).
  - destruct (new_TSNE kw v) as [w [t|e]] eqn:Et; [|discriminate].
    pose proof (new_TSNE_Ok_kwargs _ _ _ _ Et) as Hk.
    rewrite (new_TSNE_ok kw v Hk) in Et. inversion Et. subst w t.
    intros H. inversion H. subst v' p. split; [reflexivity|]. split.
    + exists []. simpl. split; [reflexivity | lia].
    + intros u. now rewrite (new_TSNE_ok kw u Hk).
Qed.

(** X7.  A visualizer that [__init__] returns holds the axes, class names,
    colours and colour map it was given, a counter of 0, and a pipeline
    whose last stage is the embedding with 2 components and the keyword
    arguments of the call, after at most one other stage; it is the
    pipeline [make_transformer] returns for the same arguments. *)
Theorem init_invariant {B : Backend} (a : option Axes) (d : option string)
    (n : Z) (c : option (list PyVal)) (co : option (list Color))
    (cm : option string) (kw : Kwargs) (v : Visualizer) :
  init a d n c co cm kw = Ok v ->
  ax v = a /\ classes_ v = c /\ n_instances_ v = 0
  /\ colors v = co /\ colormap v = cm
  /\ exists p pre,
       transformer_ v = Some p
       /\ steps p = (pre ++ [("tsne", TSNE 2 kw)])%list
       /\ (List.length pre <= 1)%nat
       /\ make_transformer d n kw v = (v, Ok p).
Proof.
  unfold init, bind.
  destruct (make_transformer d n kw (mkVisualizer a c 0 co cm None))
    as [w [p|e]] eqn:E; [|discriminate].
  destruct (make_transformer_Ok_inv _ _ _ _ _ _ E) as [-> [[pre [Hs Hl]] Hu]].
  unfold set_transformer_. simpl. intros H. inversion H. subst v.
  simpl. repeat (split; [reflexivity|]).
  exists p, pre. split; [reflexivity|]. split; [exact Hs|].
  split; [exact Hl | apply Hu].
Qed.

Lemma init_invariant_witness :
  exists v p,
    init (B:=list_backend) (Some blank_axes) (Some "pca") 20
      (Some [PStr "a"]) None None [("perplexity", PInt 30)] = Ok v
    /\ n_instances_ v = 0
    /\ transformer_ v = Some p
    /\ steps p = ([("pca", PCA 20)]
                  ++ [("tsne", TSNE 2 [("perplexity", PInt 30)])])%list.
Proof.
  destruct (init_invariant (B:=list_backend) (Some blank_axes) (Some "pca") 20
              (Some [PStr "a"]) None None [("perplexity", PInt 30)]
              (mkVisualizer (Some blank_axes) (Some [PStr "a"]) 0 None None
                 (Some (mkPipeline
                          [("pca", PCA 20);
                           ("tsne", TSNE 2 [("perplexity", PInt 30)])])))
              eq_refl)
    as [_ [_ [Hn [_ [_ [p [pre [Hp [Hs [_ Hm]]]]]]]]]].
  eexists. exists p. split; [reflexivity|]. split; [exact Hn|].
  split; [exact Hp|]. inversion Hp. reflexivity.
Defined.

Lemma init_Raise {B : Backend} a d n c co cm kw e :
  init a d n c co cm kw = Raise e
  <-> snd (make_transformer d n kw (mkVisualizer a c 0 co cm None)) = Raise e.
Proof.
  unfold init, bind.
  destruct (make_transformer d n kw (mkVisualizer a c 0 co cm None))
    as [w [p|e0]]; simpl; split; intros H;
    try discriminate; congruence.
Qed.

(** X8.  [__init__] fails with the configuration error exactly when the
    selector is truthy and its lowercase form is not in the table; the
    message then quotes the selector. *)
Theorem init_rejects_unknown_iff {B : Backend} (a : option Axes)
    (d : option string) (n : Z) (c : option (list PyVal))
    (co : option (list Color)) (cm : option string) (kw : Kwargs) :
  (fails_validation d = true <->
   exists msg, init a d n c co cm kw = Raise (YellowbrickValueError msg))
  /\ forall msg,
       init a d n c co cm kw = Raise (YellowbrickValueError msg) ->
       msg = invalid_decomposition_msg
               (match d with Some s => s | None => "" end).
Proof.
  assert (Hf : fails_validation d = true ->
               init a d n c co cm kw
               = Raise (YellowbrickValueError
                          (invalid_decomposition_msg
                             (match d with Some s => s | None => "" end)))).
  { intros Hv. apply init_Raise. unfold make_transformer. now rewrite Hv. }
  assert (Hb : forall msg,
             init a d n c co cm kw = Raise (YellowbrickValueError msg) ->
             fails_validation d = true).
  { intros msg H. apply init_Raise in H.
    eapply make_transformer_YellowbrickValueError. exact H. }
  split.
  - split; [eauto | intros [msg H]; eauto].
  - intros msg H. rewrite (Hf (Hb msg H)) in H. now inversion H.
Qed.

(** ** More on fit and finalize *)

(** [finalize] in one equation, on a visualizer that has axes. *)
Lemma finalize_eq (v : Visualizer) (a : Axes) :
  ax v = Some a ->
  finalize v
  = (with_ax v (finalized (n_instances_ v) (truthy (classes_ v)) a), Ok tt).
Proof.
  intros Ha. destruct v as [a0 c n co cm t]. simpl in Ha. subst a0.
  unfold finalize, set_title, on_ax, bind, get_self, set_ax, ret.
  cbn [ax classes_ n_instances_ colors colormap transformer_].
  destruct (truthy c); reflexivity.
Qed.

(** After [draw], however it ends, the visualizer has axes. *)
Lemma draw_has_axes {B : Backend} points target v :
  exists a, ax (fst (draw points target v)) = Some a.
Proof. rewrite draw_eq. simpl. eauto. Qed.

(** X9.  [fit] is not atomic.  When it raises, the class names its first
    statement stored stay stored; if the pipeline had produced the points,
    the error is the KeyError of the plotting loop and the counter has
    already been raised by the number of instances; if the pipeline itself
    raised, that error is passed on and counter and axes are as before. *)
Theorem fit_failure_keeps_updates {B : Backend} {L : BackendLaws B}
    (X : Matrix) (y : option (list PyVal)) (v v' : Visualizer) (p : Pipeline)
    (e : PyExn) :
  fit X y v = (v', Raise e) ->
  transformer_ v = Some p ->
  classes_ v' = stored_classes v y
  /\ match fit_transform p X with
     | Ok vecs =>
         n_instances_ v' = n_instances_ v + Z.of_nat (List.length X)
         /\ exists k, e = KeyError k
     | Raise e0 =>
         e = e0 /\ n_instances_ v' = n_instances_ v /\ ax v' = ax v
     end.
Proof.
  intros H Ht. split.
  - pose proof (fit_classes X y v) as Hc. now rewrite H in Hc.
  - rewrite fit_eq in H. cbv zeta in H. rewrite Ht in H.
    destruct (fit_transform p X) as [vecs|e0] eqn:Ef.
    + apply fit_transform_rows in Ef. rewrite draw_eq in H.
      inversion H as [[Hv He]]. simpl. split; [now rewrite Ef|].
      destruct (snd (plot_groups _ _ _)) as [k|]; simpl in He.
      * inversion He. eauto.
      * discriminate.
    + inversion H. simpl. auto.
Qed.

Lemma fit_failure_keeps_updates_witness :
  n_instances_
    (fst (fit (B:=list_backend) [[1; 2]; [3; 4]]%Q None
            (with_classes default_visualizer (Some [PStr "a"]))))
  = 0 + 2
  /\ exists k,
       snd (fit (B:=list_backend) [[1; 2]; [3; 4]]%Q None
              (with_classes default_visualizer (Some [PStr "a"])))
       = Raise (KeyError k).
Proof.
  destruct (fit_failure_keeps_updates (B:=list_backend) (L:=list_backend_laws)
              [[1; 2]; [3; 4]]%Q None
              (with_classes default_visualizer (Some [PStr "a"]))
              (fst (fit (B:=list_backend) [[1; 2]; [3; 4]]%Q None
                      (with_classes default_visualizer (Some [PStr "a"]))))
              (mkPipeline [("svd", TruncatedSVD 50); ("tsne", TSNE 2 [])])
              (KeyError PNone))
    as [_ [H1 _]].
  - vm_compute. reflexivity.
  - reflexivity.
  - split; [exact H1|]. exists PNone. vm_compute. reflexivity.
Defined.

(** X10.  On a visualizer without class names, [fit] with a non-empty
    matrix, no (or an empty) label sequence and at least one colour returns
    after raising the counter by the number of instances and drawing all
    projected points as one group keyed by None. *)
Theorem fit_unlabelled {B : Backend} {L : BackendLaws B} (X : Matrix)
    (y : option (list PyVal)) (v : Visualizer) (p : Pipeline)
    (vecs : list Point) (c : Color) :
  truthy y = false ->
  truthy (classes_ v) = false ->
  X <> [] ->
  transformer_ v = Some p ->
  fit_transform p X = Ok vecs ->
  get_color_cycle 0 = Some c ->
  exists v',
    fit X y v = (v', Ok tt)
    /\ n_instances_ v' = n_instances_ v + Z.of_nat (List.length X)
    /\ classes_ v' = classes_ v
    /\ ax v'
       = Some (add_scatters
                 [mkScatter (map fst vecs) (map snd vecs) c (7 # 10) PNone]
                 (canvas v))
    /\ List.length (map fst vecs) = List.length X.
Proof.
  intros Hy Hc HX Ht Hf Hcol.
  pose proof (fit_transform_rows _ _ _ Hf) as Hrows.
  assert (Hv : vecs <> []).
  { intros ->. destruct X; [congruence | discriminate]. }
  assert (Hst : stored_classes v y = classes_ v)
    by (unfold stored_classes; now rewrite Hy).
  rewrite fit_eq. cbv zeta. rewrite Ht, Hf, Hst.
  set (w := with_count (with_classes v (classes_ v))
              (n_instances_ v + Z.of_nat (List.length vecs))).
  assert (Hcc : color_classes w = [PNone])
    by (unfold color_classes; simpl; now rewrite Hc).
  eexists. rewrite draw_ok.
  - split; [reflexivity|]. simpl. split; [now rewrite Hrows|].
    split; [reflexivity|]. split; [|now rewrite length_map].
    change (classes_ w) with (classes_ v).
    rewrite build_series_unlabelled, group_unlabelled by assumption.
    rewrite Hcc. simpl. rewrite Hcol. unfold scatter_of. simpl.
    reflexivity.
  - change (classes_ w) with (classes_ v).
    rewrite build_series_unlabelled, group_unlabelled by assumption.
    rewrite Hcc. simpl. rewrite Hcol. intros g [<-|[]]. simpl. auto.
Qed.

Lemma fit_unlabelled_witness :
  exists v',
    fit (B:=list_backend) [[1; 2; 9]; [3; 4; 9]]%Q None default_visualizer
    = (v', Ok tt)
    /\ n_instances_ v' = 0 + 2
    /\ ax v' = Some (add_scatters
                       [mkScatter [1; 3]%Q [2; 4]%Q "#0272a2" (7 # 10) PNone]
                       blank_axes).
Proof.
  destruct (fit_unlabelled (B:=list_backend) (L:=list_backend_laws)
              [[1; 2; 9]; [3; 4; 9]]%Q None default_visualizer
              (mkPipeline [("svd", TruncatedSVD 50); ("tsne", TSNE 2 [])])
              [(1, 2); (3, 4)]%Q "#0272a2")
    as [v' [H1 [H2 [_ [H3 _]]]]].
  - reflexivity.
  - reflexivity.
  - discriminate.
  - reflexivity.
  - reflexivity.
  - reflexivity.
  - exists v'. split; [exact H1|]. split; [exact H2 | exact H3].
Defined.

(** X11.  With labels that are all strings, one per instance, no class
    names configured and a colour for each distinct label, [fit] returns
    after drawing exactly one group per distinct label, in the order of
    first occurrence, each holding the projected points of its label; the
    group sizes sum to the number of instances, by which the counter is
    raised. *)
Theorem fit_groups_string_labels {B : Backend} {L : BackendLaws B}
    (X : Matrix) (y : list PyVal) (v : Visualizer) (p : Pipeline)
    (vecs : list Point) :
  y <> [] ->
  List.length y = List.length X ->
  classes_ v = None ->
  (forall label, In label y -> exists s, label = PStr s) ->
  transformer_ v = Some p ->
  fit_transform p X = Ok vecs ->
  enough_colors (List.length (distinct y)) ->
  exists v' new,
    fit X (Some y) v = (v', Ok tt)
    /\ ax v' = Some (add_scatters new (canvas v))
    /\ map sc_label new = distinct y
    /\ List.length new = List.length (distinct y)
    /\ (forall s, In s new ->
          sc_x s = map fst (points_of (sc_label s) y vecs)
          /\ sc_y s = map snd (points_of (sc_label s) y vecs))
    /\ total_size new = List.length X
    /\ n_instances_ v' = n_instances_ v + Z.of_nat (List.length X).
Proof.
  intros Hy Hlen Hc Hs Ht Hf Hcol.
  destruct (fit_string_labels X y v p vecs Hy Hlen Hc Hs Ht Hf Hcol)
    as [v' [new [H1 [H2 [H3 [H4 H5]]]]]].
  exists v', new. split; [exact H1|]. split; [exact H2|].
  split; [exact H3|]. split; [now rewrite <- H3, length_map|].
  split; [exact H4|]. split; [exact H5|].
  destruct (fit_count _ _ _ _ H1) as [p' [vecs' [Ht' [Hf' Hn]]]].
  rewrite Hn. apply fit_transform_rows in Hf'. now rewrite Hf'.
Qed.

Lemma fit_groups_string_labels_witness :
  exists v' new,
    fit (B:=list_backend) [[1; 2]; [3; 4]; [5; 6]]%Q
      (Some [PStr "b"; PStr "a"; PStr "b"]) default_visualizer = (v', Ok tt)
    /\ map sc_label new = [PStr "b"; PStr "a"]
    /\ total_size new = 3%nat.
Proof.
  destruct (fit_groups_string_labels (B:=list_backend) (L:=list_backend_laws)
              [[1; 2]; [3; 4]; [5; 6]]%Q [PStr "b"; PStr "a"; PStr "b"]
              default_visualizer
              (mkPipeline [("svd", TruncatedSVD 50); ("tsne", TSNE 2 [])])
              [(1, 2); (3, 4); (5, 6)]%Q)
    as [v' [new [H1 [_ [H2 [_ [_ [H3 _]]]]]]]].
  - discriminate.
  - reflexivity.
  - reflexivity.
  - intros label [<-|[<-|[<-|[]]]]; eauto.
  - reflexivity.
  - reflexivity.
  - intros i Hi. simpl in Hi.
    destruct i as [|[|i]]; [discriminate | discriminate | lia].
  - exists v', new. split; [exact H1|]. split; [exact H2 | exact H3].
Defined.

(** X12.  Class names are derived once.  After a first [fit] with labels on
    a visualizer without class names, a second [fit] with other labels
    leaves the class names of the first, and every group it draws is keyed
    by the string form of a label of the first call: labels that only the
    second call brings are not drawn. *)
Theorem second_fit_keeps_class_names {B : Backend} {L : BackendLaws B}
    (X1 X2 : Matrix) (y1 y2 : list PyVal) (v : Visualizer) :
  y1 <> [] ->
  classes_ v = None ->
  y2 <> [] ->
  classes_ (fst (fit X1 (Some y1) v))
  = Some (map (fun label => PStr (py_str label)) (set_iter y1))
  /\ classes_ (fst (fit X2 (Some y2) (fst (fit X1 (Some y1) v))))
     = classes_ (fst (fit X1 (Some y1) v))
  /\ exists new,
       canvas (fst (fit X2 (Some y2) (fst (fit X1 (Some y1) v))))
       = add_scatters new (canvas (fst (fit X1 (Some y1) v)))
       /\ forall s, In s new ->
            exists label, In label y1 /\ sc_label s = PStr (py_str label).
Proof.
  intros Hy1 Hc Hy2.
  set (cls := map (fun label => PStr (py_str label)) (set_iter y1)).
  assert (H1 : classes_ (fst (fit X1 (Some y1) v)) = Some cls).
  { rewrite fit_classes. unfold stored_classes. rewrite Hc.
    destruct y1; [congruence | reflexivity]. }
  set (v1 := fst (fit X1 (Some y1) v)) in *.
  assert (Hst : stored_classes v1 (Some y2) = Some cls).
  { unfold stored_classes. rewrite H1. now rewrite andb_false_r. }
  assert (Hne : cls <> []).
  { unfold cls. intros E. apply map_eq_nil in E.
    now apply (set_iter_nonempty y1 Hy1). }
  split; [exact H1|]. split; [rewrite fit_classes, Hst; now rewrite H1|].
  rewrite fit_eq. cbv zeta. rewrite Hst.
  assert (Hsame : with_classes v1 (Some cls) = v1).
  { destruct v1. simpl in H1. subst. reflexivity. }
  rewrite Hsame.
  destruct (transformer_ v1) as [p|];
    [|exists []; split; [now rewrite add_scatters_nil | intros s []]].
  destruct (fit_transform p X2) as [vecs|e];
    [|exists []; split; [now rewrite add_scatters_nil | intros s []]].
  set (w := with_count v1 (n_instances_ v1 + Z.of_nat (List.length vecs))).
  rewrite draw_eq. unfold canvas at 1. simpl.
  destruct (plot_groups_prefix
              (dict_of PyVal_eqb (zip_colors 0 (color_classes w)))
              (build_series (classes_ w) vecs (Some y2)) (canvas w))
    as [pre [post [E [Hp _]]]].
  exists (map (scatter_of (dict_of PyVal_eqb (zip_colors 0 (color_classes w))))
            pre).
  split; [exact Hp|].
  intros s Hs. apply in_map_iff in Hs. destruct Hs as [g [<- Hg]].
  assert (Hin : In g (build_series (classes_ w) vecs (Some y2)))
    by (rewrite E; apply in_or_app; now left).
  change (classes_ w) with (classes_ v1) in Hin. rewrite H1 in Hin.
  rewrite build_series_labelled in Hin by assumption.
  apply group_points_entry in Hin. destruct Hin as [Hk _].
  apply in_map_iff in Hk. destruct Hk as [lp [Hlp Hf]].
  apply filter_In in Hf. destruct Hf as [_ Hkept].
  rewrite kept_listed in Hkept by assumption.
  apply py_in_In in Hkept. rewrite Hlp in Hkept. unfold cls in Hkept.
  apply in_map_iff in Hkept. destruct Hkept as [label [El Hl]].
  exists label. split; [now apply set_iter_In|]. simpl. now rewrite El.
Qed.

Lemma second_fit_keeps_class_names_witness :
  classes_
    (fst (fit (B:=list_backend) [[5; 6]]%Q (Some [PStr "z"])
            (fst (fit (B:=list_backend) [[1; 2]]%Q (Some [PStr "a"])
                    default_visualizer))))
  = Some [PStr "a"].
Proof.
  destruct (second_fit_keeps_class_names (B:=list_backend)
              (L:=list_backend_laws) [[1; 2]]%Q [[5; 6]]%Q [PStr "a"]
              [PStr "z"] default_visualizer)
    as [H1 [H2 _]].
  - discriminate.
  - reflexivity.
  - discriminate.
  - rewrite H2. exact H1.
Defined.

(** X13.  [finalize] is not idempotent when class names are held: a second
    call multiplies the width of the axes by 0.8 again, while title, ticks,
    legend and scatter calls stay as after the first; without class names a
    second call changes nothing. *)
Theorem finalize_twice (v : Visualizer) (a : Axes) :
  ax v = Some a ->
  exists a1 a2,
    finalize v = (with_ax v a1, Ok tt)
    /\ finalize (with_ax v a1) = (with_ax v a2, Ok tt)
    /\ ax_title a2 = ax_title a1
    /\ ax_xticks a2 = [] /\ ax_yticks a2 = []
    /\ ax_legend a2 = ax_legend a1
    /\ ax_scatters a2 = ax_scatters a
    /\ (truthy (classes_ v) = true ->
        width (ax_position a1) = (width (ax_position a) * (8 # 10))%Q
        /\ width (ax_position a2)
           = (width (ax_position a) * (8 # 10) * (8 # 10))%Q)
    /\ (truthy (classes_ v) = false -> a2 = a1).
Proof.
  intros Ha.
  exists (finalized (n_instances_ v) (truthy (classes_ v)) a).
  exists (finalized (n_instances_ v) (truthy (classes_ v))
            (finalized (n_instances_ v) (truthy (classes_ v)) a)).
  split; [now apply finalize_eq|]. split.
  - rewrite (finalize_eq (with_ax v _) _ eq_refl). reflexivity.
  - unfold finalized. simpl. destruct (truthy (classes_ v)); simpl;
      repeat (split; [reflexivity|]); split;
      try discriminate; try (intros _; split; reflexivity);
      intros _; reflexivity.
Qed.

Lemma finalize_twice_witness :
  exists a1 a2,
    finalize (mkVisualizer (Some blank_axes) (Some [PStr "a"]) 3 None None None)
    = (with_ax
         (mkVisualizer (Some blank_axes) (Some [PStr "a"]) 3 None None None)
         a1, Ok tt)
    /\ width (ax_position a1) = ((3 # 4) * (8 # 10))%Q
    /\ width (ax_position a2) = ((3 # 4) * (8 # 10) * (8 # 10))%Q.
Proof.
  destruct (finalize_twice
              (mkVisualizer (Some blank_axes) (Some [PStr "a"]) 3 None None None)
              blank_axes eq_refl)
    as [a1 [a2 [H1 [_ [_ [_ [_ [_ [_ [H2 _]]]]]]]]]].
  exists a1, a2. split; [exact H1|]. exact (H2 eq_refl).
Defined.

(** X14.  After a [fit] that returned, [finalize] returns too; the title
    carries the counter before the call plus the number of instances, and a
    legend is requested exactly when class names were configured (and not
    empty) or were derived from a non-empty label sequence. *)
Theorem fit_then_finalize {B : Backend} {L : BackendLaws B} (X : Matrix)
    (y : option (list PyVal)) (v v1 : Visualizer) :
  fit X y v = (v1, Ok tt) ->
  exists a1 a2,
    ax v1 = Some a1
    /\ finalize v1 = (with_ax v1 a2, Ok tt)
    /\ ax_title a2
       = Some ("TSNE Projection of "
               ++ NilZero.string_of_int
                    (Z.to_int (n_instances_ v + Z.of_nat (List.length X)))
               ++ " Documents")
    /\ ax_scatters a2 = ax_scatters a1
    /\ (truthy (classes_ v) = true \/ (classes_ v = None /\ truthy y = true) ->
        ax_legend a2 = Some (mkLegend "center left" (1%Q, 1 # 2)))
    /\ (truthy (classes_ v) = false ->
        (classes_ v = None -> truthy y = false) ->
        ax_legend a2 = ax_legend a1 /\ ax_position a2 = ax_position a1).
Proof.
  intros H.
  assert (Hcl : classes_ v1 = stored_classes v y).
  { pose proof (fit_classes X y v) as Hc. now rewrite H in Hc. }
  destruct (fit_count _ _ _ _ H) as [p [vecs [Ht [Hf Hn]]]].
  apply fit_transform_rows in Hf. rewrite Hf in Hn.
  assert (Hax : exists a1, ax v1 = Some a1).
  { rewrite fit_eq in H. cbv zeta in H. rewrite Ht in H.
    destruct (fit_transform p X) as [vecs'|e]; [|discriminate].
    match type of H with
    | draw ?pts ?t ?w = _ =>
        destruct (draw_has_axes pts t w) as [a1 Ha1]; rewrite H in Ha1
    end.
    eauto. }
  destruct Hax as [a1 Ha1].
  exists a1, (finalized (n_instances_ v1) (truthy (classes_ v1)) a1).
  split; [exact Ha1|]. split; [now apply finalize_eq|].
  split; [simpl; unfold title_text; simpl; now rewrite Hn|].
  split; [reflexivity|]. rewrite Hcl. unfold stored_classes. split.
  - intros [Hc | [Hc Hy]].
    + destruct (classes_ v) as [c|]; [|discriminate].
      rewrite andb_false_r, Hc. reflexivity.
    + rewrite Hc, Hy. simpl.
      destruct y as [[|y0 yr]|]; try discriminate.
      assert (Hne : set_iter (y0 :: yr) <> [])
        by (apply set_iter_nonempty; discriminate).
      destruct (set_iter (y0 :: yr)); [congruence | reflexivity].
  - intros Hc Hy. destruct (classes_ v) as [c|] eqn:Ec.
    + rewrite andb_false_r, Hc. split; reflexivity.
    + rewrite (Hy eq_refl). simpl. split; reflexivity.
Qed.

Lemma fit_then_finalize_witness :
  exists v1 a2,
    fit (B:=list_backend) [[1; 2]; [3; 4]]%Q (Some [PStr "a"; PStr "b"])
      default_visualizer = (v1, Ok tt)
    /\ finalize v1 = (with_ax v1 a2, Ok tt)
    /\ ax_title a2 = Some "TSNE Projection of 2 Documents"
    /\ ax_legend a2 = Some (mkLegend "center left" (1%Q, 1 # 2)).
Proof.
  destruct (fit_then_finalize (B:=list_backend) (L:=list_backend_laws)
              [[1; 2]; [3; 4]]%Q (Some [PStr "a"; PStr "b"]) default_visualizer
              (fst (fit (B:=list_backend) [[1; 2]; [3; 4]]%Q
                      (Some [PStr "a"; PStr "b"]) default_visualizer)))
    as [a1 [a2 [_ [H2 [H3 [_ [H4 _]]]]]]].
  - vm_compute. reflexivity.
  - eexists. exists a2. split; [vm_compute; reflexivity|].
    split; [exact H2|]. split; [exact H3|].
    apply H4. right. split; reflexivity.
Defined.

Lemma zip_colors_keys_incl {B : Backend} (cls : list PyVal) (i : nat)
    (k : PyVal) :
  In k (map fst (zip_colors i cls)) -> In k cls.
Proof.
  revert i. induction cls as [|c r IH]; intros i; simpl; [tauto|].
  destruct (get_color_cycle i); simpl; [|tauto].
  intros [H|H]; [now left | right; eapply IH; exact H].
Qed.

(** X15.  On a visualizer that holds class names, none of them None,
    [draw] without labels raises KeyError for None and draws nothing: the
    only group is keyed by None, and the colour table is keyed by the
    class names. *)
Theorem draw_unlabelled_with_class_names {B : Backend} (cls : list PyVal)
    (points : list Point) (target : option (list PyVal)) (v : Visualizer) :
  classes_ v = Some cls ->
  cls <> [] ->
  ~ In PNone cls ->
  truthy target = false ->
  points <> [] ->
  draw points target v = (with_ax v (canvas v), Raise (KeyError PNone)).
Proof.
  intros Hc Hne Hn Ht Hp.
  assert (Hcc : color_classes v = cls).
  { unfold color_classes. rewrite Hc. destruct cls; [congruence|reflexivity]. }
  rewrite draw_eq, build_series_unlabelled, group_unlabelled by assumption.
  rewrite (plot_groups_stop _ [] (PNone, (map fst points, map snd points)) []).
  - simpl. now rewrite add_scatters_nil.
  - intros h [].
  - simpl. apply dict_get_None. rewrite dict_of_keys, Hcc.
    intros H. apply Hn. eapply zip_colors_keys_incl. exact H.
Qed.

Lemma draw_unlabelled_with_class_names_witness :
  draw (B:=list_backend) [(1, 2)]%Q None
    (with_classes default_visualizer (Some [PStr "a"; PStr "b"]))
  = (with_ax (with_classes default_visualizer (Some [PStr "a"; PStr "b"]))
       blank_axes, Raise (KeyError PNone)).
Proof.
  refine (draw_unlabelled_with_class_names (B:=list_backend)
            [PStr "a"; PStr "b"] [(1, 2)%Q] None
            (with_classes default_visualizer (Some [PStr "a"; PStr "b"]))
            _ _ _ _ _).
  - reflexivity.
  - discriminate.
  - simpl. intros [H|[H|H]]; [discriminate | discriminate | exact H].
  - reflexivity.
  - discriminate.
Defined.

(** X16.  Every selector that is "svd" or "pca" up to the case of its
    letters, without being written in lowercase, passes the validation and
    then makes [make_transformer] raise KeyError for the selector as
    given, leaving the visualizer as it was. *)
Theorem mixed_case_selector_KeyError {B : Backend} (d : string) (n : Z)
    (kw : Kwargs) (v : Visualizer) :
  In (lower d) ["svd"; "pca"] ->
  lower d <> d ->
  fails_validation (Some d) = false
  /\ make_transformer (Some d) n kw v = (v, Raise (KeyError (PStr d))).
Proof.
  intros Hl Hd.
  assert (Hne : d <> "").
  { intros ->. simpl in Hl. destruct Hl as [H|[H|H]];
      [discriminate | discriminate | exact H]. }
  assert (Hk : existsb (String.eqb (lower d)) (dict_keys decompositions) = true).
  { apply existsb_exists. exists (lower d). split; [exact Hl|].
    apply String.eqb_refl. }
  assert (Hn : existsb (String.eqb d) (dict_keys decompositions) = false).
  { destruct (existsb (String.eqb d) (dict_keys decompositions)) eqn:E;
      [|reflexivity].
    apply existsb_exists in E. destruct E as [k [Hin Ek]].
    apply String.eqb_eq in Ek. subst k. exfalso. apply Hd.
    simpl in Hin. destruct Hin as [<-|[<-|[]]]; reflexivity. }
  split.
  - unfold fails_validation. rewrite (truthy_str_nonempty d Hne), Hk.
    reflexivity.
  - now apply make_transformer_KeyError.
Qed.

Lemma mixed_case_selector_KeyError_witness :
  make_transformer (B:=list_backend) (Some "Pca") 50 [] default_visualizer
  = (default_visualizer, Raise (KeyError (PStr "Pca"))).
Proof.
  refine (proj2 (mixed_case_selector_KeyError (B:=list_backend) "Pca" 50 []
                   default_visualizer _ _)).
  - simpl. auto.
  - discriminate.
Defined.
